(** * cbz_refactor: batch planning, filename classification and volume rebuilding

    A shallow embedding of [cbz_refactor.py].  Python integers are [Z],
    lists are [list], [str] values are [string] (sequences of characters
    with code points below 256, on which [\d] is [0-9] and [(?i)] is ASCII
    case folding), raised exceptions are the [Raise] outcome, the logger is
    a list of events and the folder on disk is a finite map from file names
    to contents. *)

From Stdlib Require Import ZArith Lia Ascii String.
From Stdlib Require Import DecimalString DecimalPos DecimalN.
From stdpp Require Import base list gmap strings sorting.

Local Open Scope Z_scope.

(** ** Outcomes and log events *)

Inductive exn : Type :=
  | ZeroDivisionError
  | IndexError
  | ValueError
  | OSError.

(** A Python call returns, raises, or (for the one unbounded [while] loop of
    the program) is still running when the fuel of the model is spent. *)
Inductive outcome (A : Type) : Type :=
  | Ok (a : A)
  | Raise (e : exn)
  | OutOfFuel.

Arguments Ok {A} a.
Arguments Raise {A} e.
Arguments OutOfFuel {A}.

(** Sequencing: an exception (or the lack of fuel) of the first step is
    the outcome of the whole. *)
Definition and_then {A B} (r : outcome A) (k : A -> outcome B) : outcome B :=
  match r with
  | Ok a => k a
  | Raise e => Raise e
  | OutOfFuel => OutOfFuel
  end.

(** One constructor per [logger.info] / [logger.error] call of the program. *)
Inductive event : Type :=
  | InfoNoExtraRemain (remaining : Z)
  | InfoRemainingAverage (remaining avg_size : Z)
  | InfoExtracted (name : string) (images : nat)
  | ErrorExtract (name : string)
  | InfoCreated (name : string) (pages : nat)
  | ErrorCreate (name : string)
  | ErrorFolderMissing (folder_name : string)
  | InfoProcessing (folder_name batch_sizes_str : string)
      (no_extra avoid_volumes delete_originals : bool)
  | ErrorInvalidBatch (folder_name : string)
  | InfoNoCbz (folder_name : string)
  | InfoMovedToSpecials (name : string)
  | ErrorMove (name : string)
  | InfoSkippingVolumes (names : list string)
  | InfoFoundExisting (max_volume volume_counter : Z)
  | InfoNoRegular
  | InfoWillCreate (actual_batches : list Z)
  | InfoProcessingBatch (volume_counter : Z) (files : nat)
  | ErrorProcessing (name : string)
  | ErrorNoImages (volume_counter : Z)
  | InfoDeleted (name : string)
  | ErrorDelete (name : string)
  | ErrorCreateVolume (volume_counter : Z)
  | InfoLeft (names : list string).

(** ** Batch planner: [calculate_batches] *)

Module Planner.

(** [sum(batch_sizes)] *)
Definition sum_sizes (l : list Z) : Z := fold_left Z.add l 0.

Arguments sum_sizes : simpl never.

(** A size list as the grammar of the configuration wants it. *)
Definition positive_sizes (l : list Z) : Prop := Forall (fun s => 0 < s) l.

(** [a // b]; Rocq's [Z.div] rounds to the floor like Python's, and Python
    raises on a zero divisor. *)
Definition floordiv (a b : Z) : outcome Z :=
  if b =? 0 then Raise ZeroDivisionError else Ok (a / b).

(** [[x] * k]: no element at all when [k] is negative. *)
Definition list_times (x : Z) (k : Z) : list Z := replicate (Z.to_nat k) x.

(** The [for size in batch_sizes] loop of the clamping branch, started with
    [remaining] files and an empty [result]. *)
Fixpoint clamp_sizes (batch_sizes : list Z) (remaining : Z) : list Z :=
  match batch_sizes with
  | [] => []
  | size :: rest =>
      if remaining <=? 0 then []
      else Z.min size remaining :: clamp_sizes rest (remaining - size)
  end.

(** The [while remaining > 0] loop that appends average-sized batches. *)
Fixpoint append_average (fuel : nat) (remaining avg_size : Z) (result : list Z)
  : outcome (list Z) :=
  if 0 <? remaining then
    match fuel with
    | O => OutOfFuel
    | S fuel' =>
        if avg_size <? remaining
        then append_average fuel' (remaining - avg_size) avg_size (result ++ [avg_size])
        else append_average fuel' 0 avg_size (result ++ [remaining])
    end
  else Ok result.

Definition calculate_batches (fuel : nat) (num_files : Z) (batch_sizes : list Z)
    (is_repeating no_extra : bool) : list event * outcome (list Z) :=
  if is_repeating then
    match batch_sizes with
    | [] => ([], Raise IndexError)
    | batch_size :: _ =>
        if no_extra then
          match floordiv num_files batch_size with
          | Ok num_batches =>
              (if negb (num_files mod batch_size =? 0)
               then [InfoNoExtraRemain (num_files mod batch_size)] else [],
               Ok (list_times batch_size num_batches))
          | Raise e => ([], Raise e)
          | OutOfFuel => ([], OutOfFuel)
          end
        else
          match floordiv (num_files + batch_size - 1) batch_size with
          | Ok num_batches => ([], Ok (list_times batch_size num_batches))
          | Raise e => ([], Raise e)
          | OutOfFuel => ([], OutOfFuel)
          end
    end
  else
    let total_specified := sum_sizes batch_sizes in
    if num_files <=? total_specified then
      ([], Ok (clamp_sizes batch_sizes num_files))
    else if no_extra then
      ([InfoNoExtraRemain (num_files - total_specified)], Ok batch_sizes)
    else
      let remaining := num_files - total_specified in
      match floordiv (sum_sizes batch_sizes) (Z.of_nat (length batch_sizes)) with
      | Ok avg_size =>
          ([InfoRemainingAverage remaining avg_size],
           append_average fuel remaining avg_size batch_sizes)
      | Raise e => ([], Raise e)
      | OutOfFuel => ([], OutOfFuel)
      end.

(** The plan alone, without the log lines. *)
Definition plan_of (fuel : nat) (num_files : Z) (batch_sizes : list Z)
    (is_repeating no_extra : bool) : outcome (list Z) :=
  snd (calculate_batches fuel num_files batch_sizes is_repeating no_extra).

End Planner.

(** ** Python string primitives *)

Module Str.

Definition is_digit (c : ascii) : bool :=
  ((48 <=? nat_of_ascii c) && (nat_of_ascii c <=? 57))%nat.

Definition digit_value (c : ascii) : Z := Z.of_nat (nat_of_ascii c) - 48.

(** [str.isspace] on code points below 256: tab to carriage return, the
    four separators 28..31, space, NEL and the no-break space. *)
Definition is_space (c : ascii) : bool :=
  let n := nat_of_ascii c in
  (((9 <=? n) && (n <=? 13)) || ((28 <=? n) && (n <=? 32))
   || (n =? 133) || (n =? 160))%nat.

(** The white space [int] skips around a numeral: as above, without the
    four separators. *)
Definition is_int_space (c : ascii) : bool :=
  let n := nat_of_ascii c in
  (((9 <=? n) && (n <=? 13)) || (n =? 32) || (n =? 133) || (n =? 160))%nat.

Fixpoint lstrip (space : ascii -> bool) (s : string) : string :=
  match s with
  | EmptyString => EmptyString
  | String c rest => if space c then lstrip space rest else s
  end.

Fixpoint rstrip (space : ascii -> bool) (s : string) : string :=
  match s with
  | EmptyString => EmptyString
  | String c rest =>
      match rstrip space rest with
      | EmptyString => if space c then EmptyString else String c EmptyString
      | kept => String c kept
      end
  end.

Definition strip_by (space : ascii -> bool) (s : string) : string :=
  rstrip space (lstrip space s).

(** [s.strip()] *)
Definition strip (s : string) : string := strip_by is_space s.

(** [',' in s] *)
Fixpoint contains_comma (s : string) : bool :=
  match s with
  | EmptyString => false
  | String c rest => Ascii.eqb c "," || contains_comma rest
  end.

(** [s.split(',')]: never empty, one more piece than there are commas. *)
Fixpoint split_comma (s : string) : list string :=
  match s with
  | EmptyString => [EmptyString]
  | String c rest =>
      if Ascii.eqb c "," then EmptyString :: split_comma rest
      else match split_comma rest with
           | piece :: pieces => String c piece :: pieces
           | [] => [String c EmptyString]
           end
  end.

(** [s.endswith(suffix)] *)
Fixpoint ends_with (suffix s : string) : bool :=
  String.eqb s suffix ||
  match s with
  | EmptyString => false
  | String _ rest => ends_with suffix rest
  end.

(** The digits of [int(s)] after the first one: more digits, with single
    underscores allowed between two digits. *)
Fixpoint int_digits (s : string) (acc : Z) : option Z :=
  match s with
  | EmptyString => Some acc
  | String c rest =>
      if is_digit c then int_digits rest (10 * acc + digit_value c)
      else if Ascii.eqb c "_" then
        match rest with
        | String d _ => if is_digit d then int_digits rest acc else None
        | EmptyString => None
        end
      else None
  end.

Definition int_unsigned (s : string) : option Z :=
  match s with
  | String c rest => if is_digit c then int_digits rest (digit_value c) else None
  | EmptyString => None
  end.

(** The number of digit characters of a numeral; underscores do not
    count. *)
Fixpoint count_digits (s : string) : nat :=
  match s with
  | EmptyString => O
  | String c rest => ((if is_digit c then 1 else 0) + count_digits rest)%nat
  end.

(** [sys.int_info.default_max_str_digits]: a decimal numeral with more
    digits is refused by [int]. *)
Definition int_max_str_digits : nat := 4300.

Arguments int_max_str_digits : simpl never.

(** The numeral of [int(s)] once white space and sign are gone. *)
Definition int_numeral (s : string) : option Z :=
  if (count_digits s <=? int_max_str_digits)%nat then int_unsigned s else None.

(** [int(s)] in base ten; [None] stands for [ValueError]. *)
Definition py_int (s : string) : option Z :=
  match strip_by is_int_space s with
  | String c rest =>
      if Ascii.eqb c "-" then Z.opp <$> int_numeral rest
      else if Ascii.eqb c "+" then int_numeral rest
      else int_numeral (String c rest)
  | EmptyString => None
  end.

(** [str(z)] *)
Definition str_of_int (z : Z) : string := NilZero.string_of_int (Z.to_int z).

Fixpoint zeros (n : nat) : string :=
  match n with
  | O => EmptyString
  | S n' => String "0" (zeros n')
  end.

(** Left padding with ["0"] up to a minimal width. *)
Definition zero_pad (width : nat) (digits : string) : string :=
  zeros (width - String.length digits) +:+ digits.

(** [f"{z:03d}"]: the sign counts in the width. *)
Definition format_03d (z : Z) : string :=
  if z <? 0
  then String "-" (zero_pad 2 (NilZero.string_of_uint (N.to_uint (Z.to_N (- z)))))
  else zero_pad 3 (NilZero.string_of_uint (N.to_uint (Z.to_N z))).

(** [l[i:j]] with Python's treatment of negative and out-of-range bounds. *)
Definition slice_bound (len i : Z) : Z :=
  if i <? 0 then Z.max 0 (i + len) else Z.min i len.

Definition slice {A} (l : list A) (i j : Z) : list A :=
  let len := Z.of_nat (length l) in
  let lo := slice_bound len i in
  let hi := slice_bound len j in
  take (Z.to_nat (hi - lo)) (drop (Z.to_nat lo) l).

(** [l[i:]] *)
Definition slice_from {A} (l : list A) (i : Z) : list A :=
  drop (Z.to_nat (slice_bound (Z.of_nat (length l)) i)) l.

End Str.

(** ** Filename classifier *)

Module Classifier.
Import Str.

(** One pattern letter under [(?i)], for S, P and V on code points below
    256: the letter in either ASCII case.  (Beyond 256, which [string]
    does not hold, Python also takes U+017F for S.) *)
Definition letter_ci (upper lower c : ascii) : bool :=
  Ascii.eqb c upper || Ascii.eqb c lower.

(** [re.search]: the first start position, scanning left to right and
    ending with the empty tail, at which the pattern matches. *)
Fixpoint search {A} (match_here : string -> option A) (s : string) : option A :=
  match match_here s with
  | Some m => Some m
  | None =>
      match s with
      | EmptyString => None
      | String _ rest => search match_here rest
      end
  end.

(** [SP\d{2}] anchored at the start of [s]. *)
Definition match_special (s : string) : option unit :=
  match s with
  | String a (String b (String c (String d _))) =>
      if letter_ci "S" "s" a && letter_ci "P" "p" b && is_digit c && is_digit d
      then Some tt else None
  | _ => None
  end.

(** The longest run of digits that starts [s]: what a greedy [\d+] takes. *)
Fixpoint leading_digits (s : string) : string :=
  match s with
  | String c rest => if is_digit c then String c (leading_digits rest) else EmptyString
  | EmptyString => EmptyString
  end.

(** [V(\d+)] anchored at the start of [s]; the result is group 1. *)
Definition match_volume (s : string) : option string :=
  match s with
  | String a rest =>
      if letter_ci "V" "v" a then
        match leading_digits rest with
        | EmptyString => None
        | digits => Some digits
        end
      else None
  | EmptyString => None
  end.

Definition is_special_file (filename : string) : bool :=
  bool_decide (is_Some (search match_special filename)).

Definition is_volume_file (filename : string) : bool :=
  bool_decide (is_Some (search match_volume filename)).

(** [Ok None] is Python's [None]; [int] raises only on a run of digits
    beyond its limit. *)
Definition extract_volume_number (filename : string) : outcome (option Z) :=
  match search match_volume filename with
  | Some digits =>
      match py_int digits with
      | Some vol_num => Ok (Some vol_num)
      | None => Raise ValueError
      end
  | None => Ok None
  end.

End Classifier.

(** ** Parsing the configured batch sizes *)

Module Parser.
Import Str.

Definition parse_batch_sizes (batch_str : string) : outcome (list Z * bool) :=
  let batch_str := strip batch_str in
  if contains_comma batch_str then
    match mapM (fun x => py_int (strip x)) (split_comma batch_str) with
    | Some sizes => Ok (sizes, false)
    | None => Raise ValueError
    end
  else
    match py_int batch_str with
    | Some size => Ok ([size], true)
    | None => Raise ValueError
    end.

End Parser.

(** ** Archives held in memory and on disk *)

(** The two library calls whose result depends on the platform and on the
    interpreter's Unicode tables: [Path(name).suffix] and [str.lower]. *)
Class Platform : Type := {
  suffix : string -> string;
  lower : string -> string
}.

(** An image in memory or an archive entry: [(filename, data)]. *)
Definition image : Type := string * list Byte.byte.

(** What a file of the folder holds: a readable ZIP archive with its
    entries in order, or something [zipfile] cannot read. *)
Inductive content : Type :=
  | Archive (entries : list image)
  | Unreadable.

(** What the environment does to one [create_cbz_from_memory] call: nothing,
    failure on opening the output file, or failure of a [writestr] call or
    of closing the archive once the file is open.  After the latter the
    file holds [kept], whatever the operating system and [zipfile] kept of
    the bytes written: as a rule a truncated file that is no archive. *)
Inductive write_fault : Type :=
  | NoFault
  | OpenFails
  | WriteFails (kept : content).

(** Environment faults: creating the Specials folder, per special file
    moved, per batch written (numbered from zero in plan order), per source
    file unlinked. *)
Record faults : Type := {
  mkdir_fails : bool;
  move_fails : string -> bool;
  write_fault_of : nat -> write_fault;
  unlink_fails : string -> bool
}.

(** The folder (file name to content) and the log written so far. *)
Record world : Type := {
  fs : gmap string content;
  log : list event
}.

Definition say (e : event) (w : world) : world :=
  {| fs := fs w; log := log w ++ [e] |}.

Definition say_all (es : list event) (w : world) : world :=
  {| fs := fs w; log := log w ++ es |}.

Definition set_fs (f : gmap string content) (w : world) : world :=
  {| fs := f; log := log w |}.

Module Transcoder.
Import Str.

Definition image_extensions : list string :=
  [".jpg"; ".jpeg"; ".png"; ".webp"; ".gif"; ".bmp"]%string.

Definition in_strings (x : string) (l : list string) : bool :=
  existsb (String.eqb x) l.

(** [zip_ref.read(name)]: the data of the last entry carrying that name. *)
Fixpoint zip_read (entries : list image) (name : string)
  : option (list Byte.byte) :=
  match entries with
  | [] => None
  | (n, d) :: rest =>
      match zip_read rest name with
      | Some d' => Some d'
      | None => if String.eqb n name then Some d else None
      end
  end.

(** [images.sort(key=lambda x: x[0])]: stable, by code points. *)
Fixpoint insert_by_name (x : image) (sorted : list image) : list image :=
  match sorted with
  | [] => [x]
  | y :: rest =>
      if String.leb (fst x) (fst y) then x :: y :: rest
      else y :: insert_by_name x rest
  end.

Definition sort_by_name (images : list image) : list image :=
  foldr insert_by_name [] images.

Section WithPlatform.
Context `{Platform}.

(** The [for file_info in zip_ref.filelist] loop. *)
Definition collect_images (entries : list image) : list image :=
  flat_map
    (fun entry : image =>
       let filename := fst entry in
       let filename_lower := lower filename in
       if String.eqb filename_lower "comicinfo.xml"
          || ends_with ".xml" filename_lower
       then []
       else if in_strings (lower (suffix filename)) image_extensions
       then match zip_read entries filename with
            | Some file_data => [(filename, file_data)]
            | None => []
            end
       else [])
    entries.

(** Returns the images and logs their count, or logs the failure and
    re-raises. *)
Definition extract_cbz_to_memory (cbz_name : string) (w : world)
  : world * outcome (list image) :=
  match fs w !! cbz_name with
  | Some (Archive entries) =>
      let images := sort_by_name (collect_images entries) in
      (say (InfoExtracted cbz_name (length images)) w, Ok images)
  | _ => (say (ErrorExtract cbz_name) w, Raise OSError)
  end.

(** [f"page_{idx:03d}{ext}"] *)
Definition page_name (idx : Z) (original_name : string) : string :=
  "page_" +:+ format_03d idx +:+ suffix original_name.

(** The [writestr] loop: entries written so far in [written], [idx] the
    number of the next page. *)
Fixpoint write_pages (idx : Z) (image_data_list : list image)
    (written : list image) : list image :=
  match image_data_list with
  | [] => written
  | (original_name, data) :: rest =>
      write_pages (idx + 1) rest
        (written ++ [(page_name idx original_name, data)])
  end.

(** Opening in mode ['w'] creates or truncates the output file.  When a
    later call raises, the [except] branch logs and re-raises: the file is
    neither removed nor restored and keeps what the failed write left. *)
Definition create_cbz_from_memory (fault : write_fault) (output_name : string)
    (image_data_list : list image) (w : world) : world * outcome unit :=
  match fault with
  | NoFault =>
      let written := write_pages 1 image_data_list [] in
      (say (InfoCreated output_name (length image_data_list))
         (set_fs (<[output_name := Archive written]> (fs w)) w), Ok tt)
  | OpenFails => (say (ErrorCreate output_name) w, Raise OSError)
  | WriteFails kept =>
      (say (ErrorCreate output_name)
         (set_fs (<[output_name := kept]> (fs w)) w), Raise OSError)
  end.

End WithPlatform.
End Transcoder.

(** ** Directory processor: [process_directory] *)

Module Directory.
Import Str Classifier Parser Planner Transcoder.

(** The classification loop; the result is
    [(regular_files, special_files, volume_files)]. *)
Fixpoint classify_files (avoid_volumes : bool) (cbz_files : list string)
  : list string * list string * list string :=
  match cbz_files with
  | [] => ([], [], [])
  | cbz :: rest =>
      let '(regular_files, special_files, volume_files) :=
        classify_files avoid_volumes rest in
      if is_special_file cbz then (regular_files, cbz :: special_files, volume_files)
      else if avoid_volumes && is_volume_file cbz
      then (regular_files, special_files, cbz :: volume_files)
      else (cbz :: regular_files, special_files, volume_files)
  end.

Definition specials_path (name : string) : string := "Specials/" +:+ name.

(** [shutil.move] of every special file, each in its own [try]. *)
Fixpoint move_specials (F : faults) (special_files : list string) (w : world)
  : world :=
  match special_files with
  | [] => w
  | special :: rest =>
      move_specials F rest
        (match fs w !! special with
         | Some c =>
             if move_fails F special then say (ErrorMove special) w
             else say (InfoMovedToSpecials special)
                    (set_fs (<[specials_path special := c]> (delete special (fs w))) w)
         | None => say (ErrorMove special) w
         end)
  end.

(** The [for vol_file in volume_files] loop, started with [max_volume]. *)
Fixpoint highest_volume (volume_files : list string) (max_volume : Z)
  : outcome Z :=
  match volume_files with
  | [] => Ok max_volume
  | vol_file :: rest =>
      and_then (extract_volume_number vol_file) (fun vol_num =>
        highest_volume rest
          (match vol_num with
           | Some v => if max_volume <? v then v else max_volume
           | None => max_volume
           end))
  end.

(** "Determine starting volume number": the log lines and [volume_counter]. *)
Definition starting_volume (avoid_volumes : bool) (volume_files : list string)
  : outcome (list event * Z) :=
  match volume_files with
  | _ :: _ =>
      if avoid_volumes then
        and_then (highest_volume volume_files 0) (fun max_volume =>
          if 0 <? max_volume
          then Ok ([InfoFoundExisting max_volume (max_volume + 1)], max_volume + 1)
          else Ok ([], 1))
      else Ok ([], 1)
  | [] => Ok ([], 1)
  end.

Definition output_name (folder_name : string) (volume_counter : Z) : string :=
  folder_name +:+ " V" +:+ format_03d volume_counter +:+ ".cbz".

(** [cbz_file.unlink()] for every file of the batch, each in its own [try];
    unlinking a file that is not there raises too. *)
Fixpoint delete_sources (F : faults) (batch : list string) (w : world) : world :=
  match batch with
  | [] => w
  | cbz_file :: rest =>
      delete_sources F rest
        (match fs w !! cbz_file with
         | Some _ =>
             if unlink_fails F cbz_file then say (ErrorDelete cbz_file) w
             else say (InfoDeleted cbz_file) (set_fs (delete cbz_file (fs w)) w)
         | None => say (ErrorDelete cbz_file) w
         end)
  end.

Section WithPlatform.
Context `{Platform}.

(** "Extract all CBZ files in this batch to memory". *)
Fixpoint extract_batch (batch : list string) (all_images : list image)
    (w : world) : world * list image :=
  match batch with
  | [] => (w, all_images)
  | cbz_file :: rest =>
      match extract_cbz_to_memory cbz_file w with
      | (w', Ok images) => extract_batch rest (all_images ++ images) w'
      | (w', _) => extract_batch rest all_images (say (ErrorProcessing cbz_file) w')
      end
  end.

(** The loop state: the world, [file_index] and [volume_counter]. *)
Record cursor : Type := {
  cur_world : world;
  file_index : Z;
  volume_counter : Z
}.

(** One iteration of [for batch_size in actual_batches]; [batch_index]
    numbers the iterations for the fault plan only. *)
Definition process_batch (F : faults) (folder_name : string)
    (delete_originals : bool) (regular_files : list string)
    (batch_index : nat) (batch_size : Z) (st : cursor) : cursor :=
  let batch := slice regular_files (file_index st) (file_index st + batch_size) in
  let file_index' := file_index st + batch_size in
  let w0 := say (InfoProcessingBatch (volume_counter st) (length batch)) (cur_world st) in
  let '(w1, all_images) := extract_batch batch [] w0 in
  match all_images with
  | [] =>
      {| cur_world := say (ErrorNoImages (volume_counter st)) w1;
         file_index := file_index';
         volume_counter := volume_counter st + 1 |}
  | _ :: _ =>
      match create_cbz_from_memory (write_fault_of F batch_index)
              (output_name folder_name (volume_counter st)) all_images w1 with
      | (w2, Ok _) =>
          {| cur_world := if delete_originals then delete_sources F batch w2 else w2;
             file_index := file_index';
             volume_counter := volume_counter st + 1 |}
      | (w2, _) =>
          {| cur_world := say (ErrorCreateVolume (volume_counter st)) w2;
             file_index := file_index';
             volume_counter := volume_counter st |}
      end
  end.

Fixpoint process_batches (F : faults) (folder_name : string)
    (delete_originals : bool) (regular_files : list string)
    (batch_index : nat) (actual_batches : list Z) (st : cursor) : cursor :=
  match actual_batches with
  | [] => st
  | batch_size :: rest =>
      process_batches F folder_name delete_originals regular_files
        (S batch_index) rest
        (process_batch F folder_name delete_originals regular_files
           batch_index batch_size st)
  end.

(** The part of [process_directory] from "Calculate actual batches" on,
    entered when there are regular files. *)
Definition merge_batches (fuel : nat) (F : faults) (folder_name : string)
    (batch_sizes : list Z) (is_repeating no_extra delete_originals : bool)
    (regular_files : list string) (first_volume : Z) (w : world)
  : world * outcome unit :=
  match calculate_batches fuel (Z.of_nat (length regular_files))
          batch_sizes is_repeating no_extra with
  | (planned, Ok actual_batches) =>
      let w := say (InfoWillCreate actual_batches) (say_all planned w) in
      let st := process_batches F folder_name delete_originals
                  regular_files 0 actual_batches
                  {| cur_world := w; file_index := 0;
                     volume_counter := first_volume |} in
      if file_index st <? Z.of_nat (length regular_files)
      then (say (InfoLeft (slice_from regular_files (file_index st)))
              (cur_world st), Ok tt)
      else (cur_world st, Ok tt)
  | (planned, Raise e) => (say_all planned w, Raise e)
  | (planned, OutOfFuel) => (say_all planned w, OutOfFuel)
  end.

(** [process_directory]; [folder_exists] is the result of
    [folder_path.exists()] and [cbz_files] the sorted listing
    [sorted(folder_path.glob("*.cbz"))], by file name.  A failing [mkdir]
    of the Specials folder and an exception of [extract_volume_number] or
    of the planner are not caught and leave the function. *)
Definition process_directory (fuel : nat) (F : faults) (folder_exists : bool)
    (cbz_files : list string) (folder_name batch_sizes_str : string)
    (no_extra avoid_volumes delete_originals : bool) (w : world)
  : world * outcome unit :=
  if negb folder_exists then (say (ErrorFolderMissing folder_name) w, Ok tt)
  else
    match parse_batch_sizes batch_sizes_str with
    | Ok (batch_sizes, is_repeating) =>
        let w := say (InfoProcessing folder_name batch_sizes_str no_extra
                        avoid_volumes delete_originals) w in
        match cbz_files with
        | [] => (say (InfoNoCbz folder_name) w, Ok tt)
        | _ :: _ =>
            let '(regular_files, special_files, volume_files) :=
              classify_files avoid_volumes cbz_files in
            if match special_files with [] => false | _ :: _ => mkdir_fails F end
            then (w, Raise OSError)
            else
              let w := move_specials F special_files w in
              let w := match volume_files with
                       | [] => w
                       | _ :: _ => say (InfoSkippingVolumes volume_files) w
                       end in
              match starting_volume avoid_volumes volume_files with
              | Ok (found, first_volume) =>
                  let w := say_all found w in
                  match regular_files with
                  | [] => (say InfoNoRegular w, Ok tt)
                  | _ :: _ =>
                      merge_batches fuel F folder_name batch_sizes is_repeating
                        no_extra delete_originals regular_files first_volume w
                  end
              | Raise e => (w, Raise e)
              | OutOfFuel => (w, OutOfFuel)
              end
        end
    | _ => (say (ErrorInvalidBatch folder_name) w, Ok tt)
    end.

End WithPlatform.
End Directory.

(** ** Configuration rows: [parse_bool] and [main] *)

Module Driver.
Import Str Transcoder.

(** One constructor per [logger] call of [main]. *)
Inductive driver_event : Type :=
  | Started
  | BaseDirectory
  | DefaultSettings
  | CsvMissing
  | ReadingConfiguration
  | InvalidRow (row_num : nat)
  | NoBatchSize (folder_name : string)
  | InvalidBoolean (row_num : nat)
  | Ignored (folder_name : string)
  | CsvError
  | Complete.

(** The four optional columns of a row. *)
Record flags : Type := {
  flag_no_extra : bool;
  flag_avoid_volumes : bool;
  flag_delete_originals : bool;
  flag_ignore : bool
}.

(** The values [main] falls back to. *)
Definition default_flags : flags :=
  {| flag_no_extra := true; flag_avoid_volumes := true;
     flag_delete_originals := true; flag_ignore := false |}.

Definition true_words : list string := ["true"; "yes"; "1"; "t"; "y"]%string.
Definition false_words : list string := ["false"; "no"; "0"; "f"; "n"]%string.

Section WithPlatform.
Context `{Platform}.

(** An empty or blank cell gives the default; [Raise ValueError] is the
    [ValueError] of an unknown word. *)
Definition parse_bool (value : string) (default : bool) : outcome bool :=
  match strip value with
  | EmptyString => Ok default
  | stripped =>
      let value := lower stripped in
      if in_strings value true_words then Ok true
      else if in_strings value false_words then Ok false
      else Raise ValueError
  end.

(** [parse_bool(row[i], default) if len(row) > i else default] *)
Definition cell_flag (row : list string) (i : nat) (default : bool)
  : outcome bool :=
  match row !! i with
  | Some value => parse_bool value default
  | None => Ok default
  end.

(** The body of the [try] that reads the four flags, left to right. *)
Definition row_flags (row : list string) : outcome flags :=
  and_then (cell_flag row 2 true) (fun no_extra =>
  and_then (cell_flag row 3 true) (fun avoid_volumes =>
  and_then (cell_flag row 4 true) (fun delete_originals =>
  and_then (cell_flag row 5 false) (fun ignore =>
    Ok {| flag_no_extra := no_extra; flag_avoid_volumes := avoid_volumes;
          flag_delete_originals := delete_originals; flag_ignore := ignore |})))).

(** [main] over any state [W] of the base directory and its log: [tell]
    is a [logger] call of [main], [run_directory] is the call
    [process_directory(base_path, folder_name, batch_sizes_str, no_extra,
    avoid_volumes, delete_originals, logger)]. *)
Section WithDirectories.
Variable W : Type.
Variable tell : driver_event -> W -> W.
Variable run_directory :
  string -> string -> bool -> bool -> bool -> W -> W * outcome unit.

(** The flags of a row; any [ValueError] resets all four. *)
Definition flags_or_defaults (row_num : nat) (row : list string) (w : W)
  : W * flags :=
  match row_flags row with
  | Ok fl => (w, fl)
  | _ => (tell (InvalidBoolean row_num) w, default_flags)
  end.

(** One iteration of [for row_num, row in enumerate(reader, start=1)]. *)
Definition process_row (row_num : nat) (row : list string) (w : W)
  : W * outcome unit :=
  match row with
  | [] => (tell (InvalidRow row_num) w, Ok tt)
  | name :: _ =>
      let folder_name := strip name in
      match strip <$> row !! 1%nat with
      | None | Some EmptyString => (tell (NoBatchSize folder_name) w, Ok tt)
      | Some batch_sizes_str =>
          let '(w1, fl) := flags_or_defaults row_num row w in
          if flag_ignore fl then (tell (Ignored folder_name) w1, Ok tt)
          else run_directory folder_name batch_sizes_str (flag_no_extra fl)
                 (flag_avoid_volumes fl) (flag_delete_originals fl) w1
      end
  end.

(** The loop over the rows; an exception of [process_directory] leaves
    it. *)
Fixpoint process_rows (row_num : nat) (rows : list (list string)) (w : W)
  : W * outcome unit :=
  match rows with
  | [] => (w, Ok tt)
  | row :: rest =>
      match process_row row_num row w with
      | (w1, Ok _) => process_rows (S row_num) rest w1
      | failed => failed
      end
  end.

(** [main] once the logger is set up; [csv_exists] is
    [csv_file.exists()] and [rows] what [csv.reader] yields. *)
Definition main (csv_exists : bool) (rows : list (list string)) (w : W)
  : W * outcome unit :=
  let w := tell DefaultSettings (tell BaseDirectory (tell Started w)) in
  if negb csv_exists then (tell CsvMissing w, Ok tt)
  else
    match process_rows 1 rows (tell ReadingConfiguration w) with
    | (w1, Ok _) => (tell Complete w1, Ok tt)
    | (w1, Raise _) => (tell CsvError w1, Ok tt)
    | (w1, OutOfFuel) => (w1, OutOfFuel)
    end.

End WithDirectories.
End WithPlatform.
End Driver.

(** ** A concrete platform for the worked examples *)

Module Posix.

(** [str.lower] on ASCII text: only [A-Z] change. *)
Definition lower_char (c : ascii) : ascii :=
  let n := nat_of_ascii c in
  if ((65 <=? n) && (n <=? 90))%nat then ascii_of_nat (n + 32) else c.

Fixpoint ascii_lower (s : string) : string :=
  match s with
  | EmptyString => EmptyString
  | String c rest => String (lower_char c) (ascii_lower rest)
  end.

Fixpoint has_slash (s : string) : bool :=
  match s with
  | EmptyString => false
  | String c rest => Ascii.eqb c "/" || has_slash rest
  end.

(** The text after the last ["/"]. *)
Fixpoint final_component (s : string) : string :=
  match s with
  | EmptyString => EmptyString
  | String c rest => if has_slash s then final_component rest else s
  end.

(** From the last ["."] of [s] on, when there is one. *)
Fixpoint from_last_dot (s : string) : option string :=
  match s with
  | EmptyString => None
  | String c rest =>
      match from_last_dot rest with
      | Some tail => Some tail
      | None => if Ascii.eqb c "." then Some s else None
      end
  end.

(** [PurePosixPath(name).suffix] for a relative name without [.] or empty
    components: a dot that neither starts nor ends the final component. *)
Definition posix_suffix (name : string) : string :=
  let final := final_component name in
  match from_last_dot final with
  | Some tail =>
      if bool_decide (tail = final) || (String.length tail =? 1)%nat
      then EmptyString else tail
  | None => EmptyString
  end.

End Posix.

#[export] Instance posix_platform : Platform :=
  {| suffix := Posix.posix_suffix; lower := Posix.ascii_lower |}.

(** ** Worked example: a folder "A" *)

Module Example.

Definition no_faults : faults :=
  {| mkdir_fails := false;
     move_fails := fun _ => false;
     write_fault_of := fun _ => NoFault;
     unlink_fails := fun _ => false |}.


Definition data (b : Byte.byte) : list Byte.byte := [b; b].

(** One special, one existing volume, one readable chapter with two pages
    and a metadata entry, one chapter that cannot be read. *)
Definition folder : world :=
  {| fs := list_to_map
             [("A SP01.cbz"%string, Archive [("s.png"%string, data Byte.x01)]);
              ("A V002.cbz"%string, Archive [("v.png"%string, data Byte.x02)]);
              ("A 001.cbz"%string,
               Archive [("b.jpg"%string, data Byte.x03);
                        ("a.JPG"%string, data Byte.x04);
                        ("ComicInfo.xml"%string, data Byte.x05)]);
              ("A 002.cbz"%string, Unreadable)];
     log := [] |}.

Definition listing : list string :=
  ["A 001.cbz"; "A 002.cbz"; "A SP01.cbz"; "A V002.cbz"]%string.

End Example.

(** A folder "B" whose only chapter is named like the first volume. *)
Module Collision.

Definition folder : world :=
  {| fs := list_to_map
             [("B V001.cbz"%string,
               Archive [("p.png"%string, Example.data Byte.x07)])];
     log := [] |}.

Definition regular_files : list string := ["B V001.cbz"%string].

Definition start : Directory.cursor :=
  {| Directory.cur_world := folder;
     Directory.file_index := 0;
     Directory.volume_counter := 1 |}.

End Collision.

(** The example folder when only the unreadable chapter is left to merge. *)
Module Unreadable.

Definition regular_files : list string := ["A 002.cbz"%string].

Definition start : Directory.cursor :=
  {| Directory.cur_world := Example.folder;
     Directory.file_index := 0;
     Directory.volume_counter := 3 |}.

End Unreadable.

Module ExampleRun.

Definition regular_files : list string := ["A 001.cbz"; "A 002.cbz"]%string.

(** The loop state when the first batch of the example starts. *)
Definition start : Directory.cursor :=
  {| Directory.cur_world := Example.folder;
     Directory.file_index := 0;
     Directory.volume_counter := 3 |}.

End ExampleRun.

(** A base directory that holds the one folder "A" of [Example], visited
    at most once; the state is that folder and the lines [main] logs. *)
Module ExampleDriver.
Import Driver.

Definition site : Type := world * list driver_event.

Definition tell (e : driver_event) (s : site) : site := (fst s, snd s ++ [e]).

Definition run_directory (folder_name batch_sizes_str : string)
    (no_extra avoid_volumes delete_originals : bool) (s : site)
  : site * outcome unit :=
  let '(w, result) :=
    Directory.process_directory 8 Example.no_faults
      (bool_decide (folder_name = "A"%string)) Example.listing
      folder_name batch_sizes_str no_extra avoid_volumes delete_originals
      (fst s) in
  ((w, snd s), result).

Definition start : site := (Example.folder, []).

End ExampleDriver.

(** ** Vocabulary of the statements *)

(** [sub] occurs in [s]. *)
Definition has_substring (sub s : string) : Prop :=
  exists before after : string, s = before +:+ sub +:+ after.

(** A letter V, in either case, immediately followed by a decimal digit. *)
Definition v_digit_occurrence (name : string) : Prop :=
  exists (before : string) (c d : ascii) (after : string),
    name = before +:+ String c (String d after)
    /\ Classifier.letter_ci "V" "v" c = true
    /\ Str.is_digit d = true.

Fixpoint only_digits (s : string) : bool :=
  match s with
  | EmptyString => true
  | String c rest => Str.is_digit c && only_digits rest
  end.

(** The images a batch yields: those of its readable archives, in batch
    order; a missing or unreadable file yields none. *)
Definition readable_images `{Platform} (files : gmap string content)
    (batch : list string) : list image :=
  flat_map
    (fun cbz_file =>
       match files !! cbz_file with
       | Some (Archive entries) =>
           Transcoder.sort_by_name (Transcoder.collect_images entries)
       | _ => []
       end)
    batch.

(** What extracting a batch writes to the log. *)
Definition extraction_log `{Platform} (files : gmap string content)
    (batch : list string) : list event :=
  flat_map
    (fun cbz_file =>
       match files !! cbz_file with
       | Some (Archive entries) =>
           [InfoExtracted cbz_file
              (length (Transcoder.sort_by_name (Transcoder.collect_images entries)))]
       | _ => [ErrorExtract cbz_file; ErrorProcessing cbz_file]
       end)
    batch.

(** The pages of an output archive: image [i] (from zero) renamed to page
    [first + i], data untouched. *)
Fixpoint renumber `{Platform} (first : Z) (images : list image) : list image :=
  match images with
  | [] => []
  | (original_name, data) :: rest =>
      (Transcoder.page_name first original_name, data) :: renumber (first + 1) rest
  end.

(** [",".join(pieces)] *)
Fixpoint join_commas (pieces : list string) : string :=
  match pieces with
  | [] => EmptyString
  | [piece] => piece
  | piece :: rest => piece +:+ String "," (join_commas rest)
  end.

Definition not_space (c : ascii) : bool := negb (Str.is_space c).
Definition not_comma (c : ascii) : bool := negb (Ascii.eqb c ",").

(** Every character of [s] passes the test [p]. *)
Fixpoint all_chars (p : ascii -> bool) (s : string) : bool :=
  match s with
  | EmptyString => true
  | String c rest => p c && all_chars p rest
  end.

(** The letters S and P, in either case, immediately followed by two
    decimal digits. *)
Definition sp_digits_occurrence (name : string) : Prop :=
  exists (before : string) (s p d1 d2 : ascii) (after : string),
    name = before +:+ String s (String p (String d1 (String d2 after)))
    /\ Classifier.letter_ci "S" "s" s = true
    /\ Classifier.letter_ci "P" "p" p = true
    /\ Str.is_digit d1 = true /\ Str.is_digit d2 = true.

(** The order [images.sort(key=lambda x: x[0])] asks for. *)
Definition by_name (a b : image) : Prop := String.leb (fst a) (fst b) = true.

(** [Path(name).suffix] is empty or starts with a dot. *)
Definition dotted_suffixes `{Platform} : Prop :=
  forall name : string,
    suffix name = EmptyString \/ exists rest, suffix name = String "." rest.

(** A name as a directory listing gives it: no ["/"] in it. *)
Definition plain_name (name : string) : Prop :=
  all_chars (fun c => negb (Ascii.eqb c "/")) name = true.

(** The batch the loop takes at [st] yields an image and the write of its
    volume fails. *)
Definition write_fails `{Platform} (F : faults) (regular_files : list string)
    (batch_index : nat) (batch_size : Z) (st : Directory.cursor) : bool :=
  match readable_images (fs (Directory.cur_world st))
          (Str.slice regular_files (Directory.file_index st)
             (Directory.file_index st + batch_size)),
        write_fault_of F batch_index with
  | _ :: _, OpenFails | _ :: _, WriteFails _ => true
  | _, _ => false
  end.

(** The number of batches of the loop whose write fails. *)
Fixpoint failed_writes `{Platform} (F : faults) (folder_name : string)
    (delete_originals : bool) (regular_files : list string)
    (batch_index : nat) (actual_batches : list Z) (st : Directory.cursor) : Z :=
  match actual_batches with
  | [] => 0
  | batch_size :: rest =>
      (if write_fails F regular_files batch_index batch_size st then 1 else 0)
      + failed_writes F folder_name delete_originals regular_files
          (S batch_index) rest
          (Directory.process_batch F folder_name delete_originals regular_files
             batch_index batch_size st)
  end.

(** * Properties *)

Import Str Classifier Parser Planner Transcoder Directory.

(** ** The batch planner *)

Section PlannerFacts.

Lemma fold_add_shift (l : list Z) (a : Z) :
  fold_left Z.add l a = a + fold_left Z.add l 0.
Proof.
  revert a. induction l as [|x l IH]; intros a; simpl; [lia|].
  rewrite (IH (a + x)), (IH (0 + x)). lia.
Qed.

Lemma sum_sizes_nil : sum_sizes [] = 0.
Proof. reflexivity. Qed.

Lemma sum_sizes_cons (x : Z) (l : list Z) : sum_sizes (x :: l) = x + sum_sizes l.
Proof. unfold sum_sizes. simpl. rewrite fold_add_shift. lia. Qed.

Lemma sum_sizes_app (l1 l2 : list Z) :
  sum_sizes (l1 ++ l2) = sum_sizes l1 + sum_sizes l2.
Proof.
  induction l1 as [|x l1 IH]; simpl.
  - rewrite sum_sizes_nil. lia.
  - rewrite !sum_sizes_cons, IH. lia.
Qed.

Lemma sum_sizes_replicate (k : nat) (x : Z) :
  sum_sizes (replicate k x) = Z.of_nat k * x.
Proof.
  induction k as [|k IH]; [reflexivity|].
  change (replicate (S k) x) with (x :: replicate k x).
  rewrite sum_sizes_cons, IH. lia.
Qed.

Lemma sum_sizes_positive (l : list Z) : positive_sizes l -> 0 <= sum_sizes l.
Proof.
  induction 1 as [|x l Hx _ IH]; [rewrite sum_sizes_nil; lia|].
  rewrite sum_sizes_cons. lia.
Qed.

Lemma sum_sizes_at_least_length (l : list Z) :
  positive_sizes l -> Z.of_nat (length l) <= sum_sizes l.
Proof.
  induction 1 as [|x l Hx _ IH]; [rewrite sum_sizes_nil; simpl; lia|].
  rewrite sum_sizes_cons. simpl length. lia.
Qed.

Lemma positive_replicate (k : nat) (x : Z) : 0 < x -> positive_sizes (replicate k x).
Proof. intros Hx. induction k; constructor; auto. Qed.

Lemma clamp_sizes_exhausted (l : list Z) (remaining : Z) :
  remaining <= 0 -> clamp_sizes l remaining = [].
Proof.
  intros Hr. destruct l as [|x l]; [reflexivity|]. simpl.
  destruct (Z.leb_spec remaining 0); [reflexivity|lia].
Qed.

(** Everything the clamping loop guarantees, by induction on the sizes. *)
Lemma clamp_sizes_spec (l : list Z) :
  positive_sizes l ->
  forall remaining, 0 <= remaining <= sum_sizes l ->
    (length (clamp_sizes l remaining) <= length l)%nat
    /\ sum_sizes (clamp_sizes l remaining) = remaining
    /\ (forall (i : nat) (x : Z), clamp_sizes l remaining !! i = Some x ->
          exists s, l !! i = Some s
            /\ sum_sizes (take i l) < remaining
            /\ x = Z.min s (remaining - sum_sizes (take i l))
            /\ 0 < x
            /\ (S i < length (clamp_sizes l remaining) -> x = s)%nat)
    /\ ((length (clamp_sizes l remaining) < length l)%nat ->
          remaining <= sum_sizes (take (length (clamp_sizes l remaining)) l)).
Proof.
  induction 1 as [|s l Hs Hl IH]; intros remaining Hrem.
  - rewrite sum_sizes_nil in Hrem. simpl. repeat split; auto.
    + rewrite sum_sizes_nil. lia.
    + intros i x Hi. destruct i; discriminate.
    + lia.
  - rewrite sum_sizes_cons in Hrem. simpl.
    destruct (Z.leb_spec remaining 0) as [Hz|Hpos].
    + simpl. repeat split; try lia.
      * rewrite sum_sizes_nil. lia.
      * intros i x Hi. destruct i; discriminate.
      * intros _. rewrite sum_sizes_nil. lia.
    + destruct (Z_le_gt_dec remaining s) as [Hle|Hgt].
      * rewrite (clamp_sizes_exhausted l (remaining - s)) by lia.
        simpl. repeat split; try lia.
        -- rewrite sum_sizes_cons, sum_sizes_nil. lia.
        -- intros i x Hi. destruct i as [|i]; [|destruct i; discriminate].
           simpl in Hi. injection Hi as <-. exists s. simpl.
           rewrite sum_sizes_nil. repeat split; try lia.
        -- intros _. rewrite take_0, sum_sizes_cons, sum_sizes_nil. lia.
      * destruct (IH (remaining - s) ltac:(lia)) as (Hlen & Hsum & Hnth & Hstop).
        repeat split.
        -- simpl. lia.
        -- rewrite sum_sizes_cons, Hsum. lia.
        -- intros i x Hi. destruct i as [|i].
           ++ simpl in Hi. injection Hi as <-. exists s. simpl.
              rewrite sum_sizes_nil. repeat split; try lia.
           ++ simpl in Hi. destruct (Hnth i x Hi) as (s' & Hs' & Hlt & Hx & Hxpos & Hfull).
              exists s'. simpl. rewrite sum_sizes_cons.
              split; [assumption|]. split; [lia|]. split; [rewrite Hx; f_equal; lia|].
              split; [assumption|]. intros Hi'. apply Hfull. lia.
        -- simpl. intros Hshort. rewrite sum_sizes_cons.
           specialize (Hstop ltac:(lia)). lia.
Qed.

(** The averaging loop returns, with enough fuel, the given batches
    followed by full average-sized batches and one last batch of at most
    the average. *)
Lemma append_average_spec (fuel : nat) :
  forall (remaining avg_size : Z) (result : list Z),
    0 < avg_size -> 0 < remaining -> (Z.to_nat remaining <= fuel)%nat ->
    exists (q : nat) (r : Z),
      0 < r <= avg_size
      /\ Z.of_nat q * avg_size + r = remaining
      /\ append_average fuel remaining avg_size result
         = Ok (result ++ replicate q avg_size ++ [r]).
Proof.
  induction fuel as [|fuel IH]; intros remaining avg_size result Havg Hrem Hfuel.
  - lia.
  - simpl. destruct (Z.ltb_spec 0 remaining) as [_|]; [|lia].
    destruct (Z.ltb_spec avg_size remaining) as [Hmore|Hlast].
    + destruct (IH (remaining - avg_size) avg_size (result ++ [avg_size]))
        as (q & r & Hr & Hsum & Hrun); try lia.
      exists (S q), r. repeat split; try lia.
      rewrite Hrun. f_equal. rewrite <- app_assoc. reflexivity.
    + exists O, remaining. repeat split; try lia.
      destruct fuel; reflexivity.
Qed.

(** With an average of zero or less the loop never ends: no fuel is
    enough. *)
Lemma append_average_diverges (fuel : nat) :
  forall (remaining avg_size : Z) (result : list Z),
    avg_size <= 0 -> 0 < remaining ->
    append_average fuel remaining avg_size result = OutOfFuel.
Proof.
  induction fuel as [|fuel IH]; intros remaining avg_size result Havg Hrem; simpl;
    destruct (Z.ltb_spec 0 remaining) as [_|]; try lia; [reflexivity|].
  destruct (Z.ltb_spec avg_size remaining); [|lia].
  apply IH; lia.
Qed.

(** The extension branch of the planner, shared by the results below. *)
Lemma explicit_plan_shape (fileCount : Z) (spec : list Z) :
  positive_sizes spec -> spec <> [] -> sum_sizes spec < fileCount ->
  exists (q : nat) (r avg : Z),
    0 < avg /\ 0 < r <= avg
    /\ forall fuel : nat,
         (Z.to_nat (fileCount - sum_sizes spec) <= fuel)%nat ->
         plan_of fuel fileCount spec false false
         = Ok (spec ++ replicate q avg ++ [r]).
Proof.
  intros Hpos Hne Hmore.
  set (avg := sum_sizes spec / Z.of_nat (length spec)).
  assert (Hk : 0 < Z.of_nat (length spec)) by (destruct spec; [congruence|simpl; lia]).
  assert (Havg : 0 < avg).
  { pose proof (sum_sizes_at_least_length spec Hpos) as Hlen.
    unfold avg. apply Z.div_str_pos. lia. }
  destruct (append_average_spec (Z.to_nat (fileCount - sum_sizes spec))
              (fileCount - sum_sizes spec) avg spec Havg ltac:(lia) ltac:(lia))
    as (q & r & Hr & Hsum & _).
  exists q, r, avg. repeat split; try lia.
  intros fuel Hfuel.
  destruct (append_average_spec fuel (fileCount - sum_sizes spec) avg spec
              Havg ltac:(lia) Hfuel) as (q' & r' & Hr' & Hsum' & Hrun).
  assert (q' = q) by nia. subst q'. assert (r' = r) by lia. subst r'.
  unfold plan_of, calculate_batches, floordiv.
  destruct (Z.leb_spec fileCount (sum_sizes spec)); [lia|].
  destruct (Z.eqb_spec (Z.of_nat (length spec)) 0); [lia|].
  exact Hrun.
Qed.

(** C1. Repeating mode, [fileCount >= 0] and one size [n > 0]: with the
    remainder suppressed the plan is [floor(fileCount / n)] batches of size
    [n]; otherwise it is [ceil(fileCount / n)] batches of size [n], whose
    sum is [fileCount + r] for an overrun [0 <= r < n]. *)
Theorem repeating_plan_floor_ceil (fuel : nat) (fileCount n : Z) :
  0 <= fileCount -> 0 < n ->
  (exists q : Z,
      0 <= q /\ q * n <= fileCount < (q + 1) * n
      /\ plan_of fuel fileCount [n] true true = Ok (replicate (Z.to_nat q) n))
  /\
  (exists c r : Z,
      0 <= c /\ (c - 1) * n < fileCount <= c * n
      /\ plan_of fuel fileCount [n] true false = Ok (replicate (Z.to_nat c) n)
      /\ 0 <= r < n
      /\ sum_sizes (replicate (Z.to_nat c) n) = fileCount + r).
Proof.
  intros Hf Hn.
  assert (Hnz : (n =? 0) = false) by (apply Z.eqb_neq; lia).
  split.
  - exists (fileCount / n).
    pose proof (Z.div_mod fileCount n ltac:(lia)) as Hdm.
    pose proof (Z.mod_pos_bound fileCount n Hn) as Hmod.
    assert (0 <= fileCount / n) by (apply Z.div_pos; lia).
    repeat split; try nia.
    unfold plan_of, calculate_batches, floordiv. rewrite Hnz. reflexivity.
  - set (c := (fileCount + n - 1) / n).
    pose proof (Z.div_mod (fileCount + n - 1) n ltac:(lia)) as Hdm.
    pose proof (Z.mod_pos_bound (fileCount + n - 1) n Hn) as Hmod.
    fold c in Hdm.
    assert (Hc : 0 <= c) by (apply Z.div_pos; lia).
    exists c, (c * n - fileCount).
    repeat split; try nia.
    + unfold plan_of, calculate_batches, floordiv. rewrite Hnz. reflexivity.
    + rewrite sum_sizes_replicate, Z2Nat.id by lia. lia.
Qed.

Lemma repeating_plan_floor_ceil_witness :
  (0 <= 7 /\ 0 < 3)
  /\ (exists q : Z,
        0 <= q /\ q * 3 <= 7 < (q + 1) * 3
        /\ plan_of 0 7 [3] true true = Ok (replicate (Z.to_nat q) 3))
  /\ (exists c r : Z,
        0 <= c /\ (c - 1) * 3 < 7 <= c * 3
        /\ plan_of 0 7 [3] true false = Ok (replicate (Z.to_nat c) 3)
        /\ 0 <= r < 3
        /\ sum_sizes (replicate (Z.to_nat c) 3) = 7 + r).
Proof.
  split; [lia|]. apply (repeating_plan_floor_ceil 0 7 3); lia.
Defined.

(** C2. Explicit list of positive sizes and [0 <= fileCount <= sum(spec)]:
    the plan takes the sizes in order, each clamped to the files that
    remain, and stops when none remains; it has at most [k] batches, every
    batch but the last keeps its nominal size, and the sizes add up to
    [fileCount]. *)
Theorem explicit_plan_clamped (fuel : nat) (fileCount : Z) (spec : list Z)
    (no_extra : bool) :
  positive_sizes spec -> 0 <= fileCount <= sum_sizes spec ->
  exists plan : list Z,
    plan_of fuel fileCount spec false no_extra = Ok plan
    /\ (length plan <= length spec)%nat
    /\ sum_sizes plan = fileCount
    /\ (forall (i : nat) (x : Z), plan !! i = Some x ->
          exists s, spec !! i = Some s
            /\ sum_sizes (take i spec) < fileCount
            /\ x = Z.min s (fileCount - sum_sizes (take i spec))
            /\ 0 < x
            /\ (S i < length plan -> x = s)%nat)
    /\ ((length plan < length spec)%nat ->
          fileCount <= sum_sizes (take (length plan) spec)).
Proof.
  intros Hpos Hcount. exists (clamp_sizes spec fileCount). split.
  - unfold plan_of, calculate_batches.
    destruct (Z.leb_spec fileCount (sum_sizes spec)); [reflexivity|lia].
  - apply clamp_sizes_spec; assumption.
Qed.

Lemma explicit_plan_clamped_witness :
  (positive_sizes [2; 3] /\ 0 <= 4 <= sum_sizes [2; 3])
  /\ exists plan : list Z,
       plan_of 0 4 [2; 3] false true = Ok plan
       /\ (length plan <= length [2; 3])%nat
       /\ sum_sizes plan = 4
       /\ (forall (i : nat) (x : Z), plan !! i = Some x ->
             exists s, [2; 3] !! i = Some s
               /\ sum_sizes (take i [2; 3]) < 4
               /\ x = Z.min s (4 - sum_sizes (take i [2; 3]))
               /\ 0 < x
               /\ (S i < length plan -> x = s)%nat)
       /\ ((length plan < length [2; 3])%nat ->
             4 <= sum_sizes (take (length plan) [2; 3])).
Proof.
  assert (Hpos : positive_sizes [2; 3]) by (repeat constructor).
  assert (Hcount : 0 <= 4 <= sum_sizes [2; 3]) by (vm_compute; split; discriminate).
  split; [split; assumption|].
  exact (explicit_plan_clamped 0 4 [2; 3] true Hpos Hcount).
Defined.

(** C3. Explicit list of [k >= 1] positive sizes, more files than the list
    covers and the remainder not suppressed: the plan is the [k] sizes
    unchanged, then batches of [avg = floor(sum / k)], then one last batch
    holding exactly what is left (between 1 and [avg]); the sizes add up to
    [fileCount].  The loop returns for every fuel of at least the number of
    uncovered files.  With sizes "2,3" and 10 files the plan is
    [2,3,2,2,1]. *)
Theorem explicit_plan_extended (fileCount : Z) (spec : list Z) :
  positive_sizes spec -> spec <> [] -> sum_sizes spec < fileCount ->
  let avg := sum_sizes spec / Z.of_nat (length spec) in
  (exists (q : nat) (r : Z),
      0 < r <= avg
      /\ Z.of_nat q * avg + r = fileCount - sum_sizes spec
      /\ sum_sizes (spec ++ replicate q avg ++ [r]) = fileCount
      /\ forall fuel : nat,
           (Z.to_nat (fileCount - sum_sizes spec) <= fuel)%nat ->
           plan_of fuel fileCount spec false false
           = Ok (spec ++ replicate q avg ++ [r]))
  /\ plan_of 5 10 [2; 3] false false = Ok [2; 3; 2; 2; 1].
Proof.
  intros Hpos Hne Hmore avg. split; [|reflexivity].
  assert (Hk : 0 < Z.of_nat (length spec)) by (destruct spec; [congruence|simpl; lia]).
  assert (Havg : 0 < avg).
  { pose proof (sum_sizes_at_least_length spec Hpos) as Hlen.
    unfold avg. apply Z.div_str_pos. lia. }
  destruct (append_average_spec (Z.to_nat (fileCount - sum_sizes spec))
              (fileCount - sum_sizes spec) avg spec Havg ltac:(lia) ltac:(lia))
    as (q & r & Hr & Hsum & _).
  exists q, r. repeat split; try lia.
  - rewrite !sum_sizes_app, sum_sizes_replicate, sum_sizes_cons, sum_sizes_nil. lia.
  - intros fuel Hfuel.
    destruct (append_average_spec fuel (fileCount - sum_sizes spec) avg spec
                Havg ltac:(lia) Hfuel) as (q' & r' & Hr' & Hsum' & Hrun).
    assert (q' = q) by nia. subst q'. assert (r' = r) by lia. subst r'.
    unfold plan_of, calculate_batches, floordiv.
    destruct (Z.leb_spec fileCount (sum_sizes spec)); [lia|].
    destruct (Z.eqb_spec (Z.of_nat (length spec)) 0); [lia|].
    exact Hrun.
Qed.

Lemma explicit_plan_extended_witness :
  (positive_sizes [2; 3] /\ [2; 3] <> [] /\ sum_sizes [2; 3] < 10)
  /\ (exists (q : nat) (r : Z),
        0 < r <= 2
        /\ Z.of_nat q * 2 + r = 10 - sum_sizes [2; 3]
        /\ sum_sizes ([2; 3] ++ replicate q 2 ++ [r]) = 10
        /\ forall fuel : nat,
             (Z.to_nat (10 - sum_sizes [2; 3]%Z) <= fuel)%nat ->
             plan_of fuel 10 [2; 3] false false
             = Ok ([2; 3] ++ replicate q 2 ++ [r])).
Proof.
  assert (Hpos : positive_sizes [2; 3]) by (repeat constructor).
  assert (Hne : [2; 3] <> ([] : list Z)) by discriminate.
  assert (Hmore : sum_sizes [2; 3] < 10) by reflexivity.
  split; [repeat split; assumption|].
  exact (proj1 (explicit_plan_extended 10 [2; 3] Hpos Hne Hmore)).
Defined.

(** C4. For [fileCount >= 0], a non-empty list of positive sizes, either
    mode and either value of the remainder flag, the planner returns (for
    every fuel of at least [fileCount]) a plan whose batches are all
    positive, and the plan is empty when [fileCount = 0]. *)
Theorem plan_batches_positive (fileCount : Z) (spec : list Z)
    (is_repeating no_extra : bool) :
  0 <= fileCount -> positive_sizes spec -> spec <> [] ->
  exists plan : list Z,
    (forall fuel : nat, (Z.to_nat fileCount <= fuel)%nat ->
       plan_of fuel fileCount spec is_repeating no_extra = Ok plan)
    /\ positive_sizes plan
    /\ (fileCount = 0 -> plan = []).
Proof.
  intros Hcount Hpos Hne.
  destruct is_repeating.
  - destruct spec as [|n rest]; [congruence|].
    assert (Hn : 0 < n) by (inversion Hpos; assumption).
    assert (Hnz : (n =? 0) = false) by (apply Z.eqb_neq; lia).
    destruct no_extra.
    + exists (list_times n (fileCount / n)). repeat split.
      * intros fuel _. unfold plan_of, calculate_batches, floordiv.
        rewrite Hnz. reflexivity.
      * apply positive_replicate, Hn.
      * intros ->. rewrite Z.div_0_l by lia. reflexivity.
    + exists (list_times n ((fileCount + n - 1) / n)). repeat split.
      * intros fuel _. unfold plan_of, calculate_batches, floordiv.
        rewrite Hnz. reflexivity.
      * apply positive_replicate, Hn.
      * intros ->. rewrite Z.div_small by lia. reflexivity.
  - pose proof (sum_sizes_positive spec Hpos) as Htotal.
    destruct (Z_le_gt_dec fileCount (sum_sizes spec)) as [Hle|Hgt].
    + exists (clamp_sizes spec fileCount).
      destruct (clamp_sizes_spec spec Hpos fileCount ltac:(lia))
        as (_ & _ & Hnth & _).
      repeat split.
      * intros fuel _. unfold plan_of, calculate_batches.
        destruct (Z.leb_spec fileCount (sum_sizes spec)); [reflexivity|lia].
      * apply Forall_lookup_2. intros i x Hi.
        destruct (Hnth i x Hi) as (s & _ & _ & _ & Hx & _). exact Hx.
      * intros ->. apply clamp_sizes_exhausted. lia.
    + destruct no_extra.
      * exists spec. repeat split; [|assumption|lia].
        intros fuel _. unfold plan_of, calculate_batches.
        destruct (Z.leb_spec fileCount (sum_sizes spec)); [lia|reflexivity].
      * destruct (explicit_plan_shape fileCount spec Hpos Hne ltac:(lia))
          as (q & r & avg & Havg & Hr & Hrun).
        exists (spec ++ replicate q avg ++ [r]). repeat split.
        -- intros fuel Hfuel. apply Hrun. lia.
        -- unfold positive_sizes. rewrite !Forall_app. repeat split.
           ++ assumption.
           ++ apply positive_replicate, Havg.
           ++ repeat constructor. lia.
        -- lia.
Qed.

Lemma plan_batches_positive_witness :
  (0 <= 10 /\ positive_sizes [2; 3] /\ [2; 3] <> [])
  /\ exists plan : list Z,
       (forall fuel : nat, (Z.to_nat 10 <= fuel)%nat ->
          plan_of fuel 10 [2; 3] false false = Ok plan)
       /\ positive_sizes plan
       /\ (10 = 0 -> plan = []).
Proof.
  assert (Hpos : positive_sizes [2; 3]) by (repeat constructor).
  assert (Hne : [2; 3] <> ([] : list Z)) by discriminate.
  split; [repeat split; [lia|assumption|assumption]|].
  exact (plan_batches_positive 10 [2; 3] false false ltac:(lia) Hpos Hne).
Defined.

End PlannerFacts.

(** ** Integers and their decimal spelling *)

Section NumberFacts.

Lemma digit_value_range (c : ascii) : is_digit c = true -> 0 <= digit_value c <= 9.
Proof.
  unfold is_digit, digit_value. rewrite andb_true_iff, !Nat.leb_le. lia.
Qed.

Lemma digit_is_not_space (c : ascii) : is_digit c = true -> is_space c = false.
Proof.
  unfold is_digit, is_space. rewrite andb_true_iff, !Nat.leb_le. intros [Hlo Hhi].
  rewrite !orb_false_iff, !andb_false_iff, !Nat.leb_gt, !Nat.eqb_neq. lia.
Qed.

Lemma digit_is_not_int_space (c : ascii) :
  is_digit c = true -> is_int_space c = false.
Proof.
  unfold is_digit, is_int_space. rewrite andb_true_iff, !Nat.leb_le. intros [Hlo Hhi].
  rewrite !orb_false_iff, !andb_false_iff, !Nat.leb_gt, !Nat.eqb_neq. lia.
Qed.

Lemma digit_is_not_sign (c : ascii) :
  is_digit c = true -> Ascii.eqb c "-" = false /\ Ascii.eqb c "+" = false.
Proof.
  intros Hc. split; apply Ascii.eqb_neq; intros ->; discriminate.
Qed.

Lemma digit_is_not_comma (c : ascii) :
  is_digit c = true -> Ascii.eqb c "," = false.
Proof. intros Hc. apply Ascii.eqb_neq; intros ->; discriminate. Qed.

(** Stripping leaves a numeral alone, whichever white space is stripped. *)
Section Stripping.

Variable space : ascii -> bool.
Hypothesis digits_are_kept : forall c, is_digit c = true -> space c = false.
Hypothesis minus_is_kept : space "-" = false.

Lemma rstrip_digits (s : string) : only_digits s = true -> rstrip space s = s.
Proof.
  induction s as [|c s IH]; simpl; [reflexivity|].
  rewrite andb_true_iff. intros [Hc Hs]. rewrite (IH Hs).
  destruct s; [|reflexivity]. rewrite (digits_are_kept c Hc). reflexivity.
Qed.

Lemma strip_by_digits (s : string) : only_digits s = true -> strip_by space s = s.
Proof.
  intros Hs. unfold strip_by.
  assert (Hl : lstrip space s = s).
  { destruct s as [|c s]; [reflexivity|]. simpl in *.
    apply andb_true_iff in Hs as [Hc _]. rewrite (digits_are_kept c Hc). reflexivity. }
  rewrite Hl. apply rstrip_digits, Hs.
Qed.

Lemma strip_by_signed_digits (s : string) :
  only_digits s = true -> s <> EmptyString ->
  strip_by space (String "-" s) = String "-" s.
Proof.
  intros Hs Hne. unfold strip_by. cbn [lstrip].
  rewrite minus_is_kept. cbn [rstrip].
  rewrite (rstrip_digits s Hs). destruct s; [congruence|].
  rewrite ?minus_is_kept. reflexivity.
Qed.

End Stripping.

Lemma count_digits_length (s : string) : (count_digits s <= String.length s)%nat.
Proof.
  induction s as [|c s IH]; simpl; [lia|]. destruct (is_digit c); lia.
Qed.

Lemma int_numeral_short (s : string) :
  (String.length s <= int_max_str_digits)%nat -> int_numeral s = int_unsigned s.
Proof.
  intros Hlen. unfold int_numeral.
  pose proof (count_digits_length s) as Hcount.
  destruct (Nat.leb_spec (count_digits s) int_max_str_digits); [reflexivity|lia].
Qed.

Lemma digits_have_no_comma (s : string) :
  only_digits s = true -> contains_comma s = false.
Proof.
  induction s as [|c s IH]; simpl; [reflexivity|].
  rewrite andb_true_iff. intros [Hc Hs].
  rewrite (digit_is_not_comma c Hc), (IH Hs). reflexivity.
Qed.

Lemma int_digits_nonnegative (s : string) :
  only_digits s = true ->
  forall acc, 0 <= acc -> exists n, int_digits s acc = Some n /\ 0 <= n.
Proof.
  induction s as [|c s IH]; simpl; intros Hs acc Hacc; [eauto|].
  apply andb_true_iff in Hs as [Hc Hs]. rewrite Hc.
  apply IH; [assumption|]. pose proof (digit_value_range c Hc). lia.
Qed.

(** [int] accepts every non-empty run of digits within the limit, with a
    value of at least zero. *)
Lemma py_int_digits (s : string) :
  only_digits s = true -> s <> EmptyString ->
  (String.length s <= int_max_str_digits)%nat ->
  exists n, py_int s = Some n /\ 0 <= n.
Proof.
  intros Hs Hne Hlen. unfold py_int.
  rewrite (strip_by_digits _ digit_is_not_int_space s Hs).
  destruct s as [|c s]; [congruence|].
  rewrite (int_numeral_short _ Hlen). simpl in Hs.
  apply andb_true_iff in Hs as [Hc Hs].
  destruct (digit_is_not_sign c Hc) as [-> ->]. simpl. rewrite Hc.
  apply int_digits_nonnegative; [assumption|].
  pose proof (digit_value_range c Hc). lia.
Qed.

(** Decide the leading test of [int_digits] on a literal digit. *)
Ltac known_digit :=
  match goal with
  | |- (if is_digit ?c then _ else _) = _ => change (is_digit c) with true; cbv iota
  end.

Lemma uint_digits (d : Decimal.uint) :
  only_digits (NilEmpty.string_of_uint d) = true.
Proof. induction d; simpl; auto. Qed.

Lemma int_digits_of_uint_acc (d : Decimal.uint) :
  forall p : positive,
    int_digits (NilEmpty.string_of_uint d) (Z.pos p)
    = Some (Z.pos (Pos.of_uint_acc d p)).
Proof.
  induction d; intros p; cbn [NilEmpty.string_of_uint int_digits Pos.of_uint_acc];
    [reflexivity|..];
    known_digit; rewrite <- IHd; f_equal;
    match goal with
    | |- context [digit_value ?c] =>
        let v := eval vm_compute in (digit_value c) in
        change (digit_value c) with v
    end; lia.
Qed.

Lemma int_digits_of_uint (d : Decimal.uint) :
  int_digits (NilEmpty.string_of_uint d) 0 = Some (Z.of_N (Pos.of_uint d)).
Proof.
  induction d; cbn [NilEmpty.string_of_uint int_digits Pos.of_uint];
    [reflexivity|exact IHd|..];
    known_digit; cbn [Z.of_N];
    rewrite <- int_digits_of_uint_acc; reflexivity.
Qed.

Lemma int_digits_zeros (k : nat) (s : string) :
  int_digits (zeros k +:+ s) 0 = int_digits s 0.
Proof. induction k; simpl; [reflexivity|exact IHk]. Qed.

Lemma int_unsigned_from_zero (s : string) :
  s <> EmptyString -> only_digits s = true -> int_unsigned s = int_digits s 0.
Proof.
  intros Hne Hs. destruct s as [|c s]; [congruence|]. simpl in *.
  apply andb_true_iff in Hs as [-> _]. reflexivity.
Qed.

Lemma decimal_nonempty (n : N) :
  NilZero.string_of_uint (N.to_uint n) = NilEmpty.string_of_uint (N.to_uint n)
  /\ NilEmpty.string_of_uint (N.to_uint n) <> EmptyString.
Proof.
  assert (Hnn : N.to_uint n <> Decimal.Nil).
  { destruct n; [discriminate|apply DecimalPos.Unsigned.to_uint_nonnil]. }
  destruct (N.to_uint n); try congruence; simpl; split; (reflexivity || discriminate).
Qed.

(** Reading back the decimal spelling of a natural number. *)
Lemma int_unsigned_decimal (n : N) :
  int_unsigned (NilZero.string_of_uint (N.to_uint n)) = Some (Z.of_N n).
Proof.
  destruct (decimal_nonempty n) as [-> Hne].
  rewrite int_unsigned_from_zero by (auto using uint_digits).
  rewrite int_digits_of_uint. change (Pos.of_uint (N.to_uint n)) with (N.of_uint (N.to_uint n)).
  rewrite DecimalN.Unsigned.of_to. reflexivity.
Qed.

Lemma only_digits_app (s t : string) :
  only_digits (s +:+ t) = only_digits s && only_digits t.
Proof.
  induction s as [|c s IH]; simpl; [reflexivity|]. rewrite IH, andb_assoc. reflexivity.
Qed.

Lemma zeros_digits (k : nat) : only_digits (zeros k) = true.
Proof. induction k; simpl; auto. Qed.

Lemma string_length_app (s t : string) :
  String.length (s +:+ t) = (String.length s + String.length t)%nat.
Proof. induction s as [|c s IH]; simpl; [reflexivity|]. rewrite IH. reflexivity. Qed.

Lemma zeros_length (k : nat) : String.length (zeros k) = k.
Proof. induction k; simpl; auto. Qed.

(** [f"{idx:03d}"] for a page or volume number: only digits, at least
    three of them, the decimal spelling of the number behind as many zeros
    as it lacks to three, and they read back as the number. *)
Lemma format_03d_spec (idx : Z) :
  0 <= idx ->
  only_digits (format_03d idx) = true
  /\ (3 <= String.length (format_03d idx))%nat
  /\ int_unsigned (format_03d idx) = Some idx
  /\ format_03d idx
     = zeros (3 - String.length (str_of_int idx)) +:+ str_of_int idx.
Proof.
  intros Hidx. unfold format_03d, zero_pad.
  destruct (Z.ltb_spec idx 0) as [|_]; [lia|].
  set (digits := NilZero.string_of_uint (N.to_uint (Z.to_N idx))).
  assert (Hdigits : only_digits digits = true).
  { unfold digits. destruct (decimal_nonempty (Z.to_N idx)) as [-> _]. apply uint_digits. }
  assert (Hne : digits <> EmptyString).
  { unfold digits. destruct (decimal_nonempty (Z.to_N idx)) as [-> H]. exact H. }
  assert (Hall : only_digits (zeros (3 - String.length digits) +:+ digits) = true).
  { rewrite only_digits_app, zeros_digits, Hdigits. reflexivity. }
  split; [exact Hall|]. split.
  { rewrite string_length_app, zeros_length. lia. }
  split.
  - assert (Hne' : zeros (3 - String.length digits) +:+ digits <> EmptyString).
    { destruct (3 - String.length digits)%nat; simpl; [exact Hne|discriminate]. }
    rewrite int_unsigned_from_zero by assumption.
    rewrite int_digits_zeros.
    rewrite <- int_unsigned_from_zero by assumption.
    unfold digits. rewrite int_unsigned_decimal, Z2N.id by lia. reflexivity.
  - unfold str_of_int, digits. destruct idx as [|p|p]; try lia; reflexivity.
Qed.

(** The spelling of [z]: an optional minus sign, then the digits of [|z|]. *)
Lemma str_of_int_shape (z : Z) :
  exists digits : string,
    only_digits digits = true /\ digits <> EmptyString
    /\ int_unsigned digits = Some (Z.abs z)
    /\ str_of_int z = (if z <? 0 then String "-" digits else digits).
Proof.
  exists (NilZero.string_of_uint (N.to_uint (Z.abs_N z))).
  destruct (decimal_nonempty (Z.abs_N z)) as [Heq Hne].
  split; [rewrite Heq; apply uint_digits|].
  split; [rewrite Heq; exact Hne|].
  split; [rewrite int_unsigned_decimal, N2Z.inj_abs_N; reflexivity|].
  destruct z; reflexivity.
Qed.

(** [int(str(z)) = z] within the limit on digits. *)
Lemma py_int_str_of_int (z : Z) :
  (String.length (str_of_int z) <= int_max_str_digits)%nat ->
  py_int (str_of_int z) = Some z.
Proof.
  destruct (str_of_int_shape z) as (digits & Hd & Hne & Hval & ->).
  unfold py_int. destruct (Z.ltb_spec z 0) as [Hneg|Hpos]; intros Hlen.
  - rewrite (strip_by_signed_digits _ digit_is_not_int_space eq_refl _ Hd Hne).
    change (Ascii.eqb "-" "-") with true. cbv iota.
    rewrite int_numeral_short by (simpl in Hlen; lia).
    rewrite Hval. simpl. f_equal. lia.
  - rewrite (strip_by_digits _ digit_is_not_int_space _ Hd).
    rewrite <- (int_numeral_short _ Hlen) in Hval.
    destruct digits as [|c t]; [congruence|].
    assert (Hc : is_digit c = true) by (simpl in Hd; apply andb_true_iff in Hd; tauto).
    destruct (digit_is_not_sign c Hc) as [-> ->]. rewrite Hval. f_equal. lia.
Qed.

Lemma str_of_int_no_comma (z : Z) : contains_comma (str_of_int z) = false.
Proof.
  destruct (str_of_int_shape z) as (digits & Hd & _ & _ & ->).
  destruct (z <? 0); simpl; apply digits_have_no_comma, Hd.
Qed.

Lemma strip_str_of_int (z : Z) : strip (str_of_int z) = str_of_int z.
Proof.
  destruct (str_of_int_shape z) as (digits & Hd & Hne & _ & ->).
  unfold strip. destruct (z <? 0).
  - apply (strip_by_signed_digits _ digit_is_not_space eq_refl _ Hd Hne).
  - apply (strip_by_digits _ digit_is_not_space _ Hd).
Qed.

End NumberFacts.

(** ** The filename classifier *)

Section ClassifierFacts.

Lemma search_found {A} (m : string -> option A) (s : string) (r : A) :
  search m s = Some r ->
  exists before after : string, s = before +:+ after /\ m after = Some r.
Proof.
  induction s as [|c s IH]; simpl.
  - destruct (m EmptyString) eqn:Hm; [|discriminate].
    intros [= <-]. exists EmptyString, EmptyString. auto.
  - destruct (m (String c s)) eqn:Hm.
    + intros [= <-]. exists EmptyString, (String c s). auto.
    + intros Hs. destruct (IH Hs) as (before & after & -> & Hafter).
      exists (String c before), after. auto.
Qed.

Lemma search_finds {A} (m : string -> option A) (before after : string) :
  is_Some (m after) -> is_Some (search m (before +:+ after)).
Proof.
  intros Hm. induction before as [|c before IH]; simpl.
  - destruct after; simpl; destruct Hm as [r ->]; eauto.
  - destruct (m (String c (before +:+ after))); eauto.
Qed.

Lemma match_volume_iff (s : string) :
  is_Some (match_volume s) <->
  exists (c d : ascii) (after : string),
    s = String c (String d after)
    /\ letter_ci "V" "v" c = true /\ is_digit d = true.
Proof.
  split.
  - destruct s as [|c rest]; simpl; [intros [? [=]]|].
    destruct (letter_ci "V" "v" c) eqn:Hc; [|intros [? [=]]].
    destruct rest as [|d after]; simpl; [intros [? [=]]|].
    destruct (is_digit d) eqn:Hd; [|intros [? [=]]].
    intros _. exists c, d, after. auto.
  - intros (c & d & after & -> & Hc & Hd). simpl. rewrite Hc, Hd. eauto.
Qed.

(** What the pattern [(?i)V\d+] finds. *)
Lemma is_volume_file_iff (name : string) :
  is_volume_file name = true <-> v_digit_occurrence name.
Proof.
  unfold is_volume_file. rewrite bool_decide_eq_true. split.
  - intros [r Hr]. destruct (search_found _ _ _ Hr) as (before & tail & -> & Hm).
    destruct (proj1 (match_volume_iff tail) (ex_intro _ r Hm))
      as (c & d & after & -> & Hc & Hd).
    exists before, c, d, after. auto.
  - intros (before & c & d & after & -> & Hc & Hd).
    apply search_finds, match_volume_iff. exists c, d, after. auto.
Qed.

(** C8, as the code has it: a name that contains "Vip" and in which no V
    is immediately followed by a digit is not volume-tagged, because the
    pattern asks for at least one digit after the V. *)
Theorem vip_names_are_not_volume_tagged (name : string) :
  has_substring "Vip" name -> ~ v_digit_occurrence name ->
  is_volume_file name = false.
Proof.
  intros _ Hnone. destruct (is_volume_file name) eqn:Hv; [|reflexivity].
  exfalso. apply Hnone, is_volume_file_iff, Hv.
Qed.

Lemma vip_has_no_v_digit : ~ v_digit_occurrence "Vip.cbz".
Proof.
  intros Hocc. apply is_volume_file_iff in Hocc. vm_compute in Hocc. discriminate.
Qed.

Lemma vip_names_are_not_volume_tagged_witness :
  (has_substring "Vip" "Vip.cbz" /\ ~ v_digit_occurrence "Vip.cbz")
  /\ is_volume_file "Vip.cbz" = false.
Proof.
  assert (Hsub : has_substring "Vip" "Vip.cbz")
    by (exists EmptyString, ".cbz"%string; reflexivity).
  split; [split; [exact Hsub|exact vip_has_no_v_digit]|].
  exact (vip_names_are_not_volume_tagged "Vip.cbz" Hsub vip_has_no_v_digit).
Defined.

(** C8 as stated fails: "Vip.cbz" contains "Vip", has no V followed by a
    digit, and [is_volume_file] answers false on it. *)
Lemma vip_is_not_a_volume_match :
  ~ (forall name : string,
       has_substring "Vip" name -> ~ v_digit_occurrence name ->
       is_volume_file name = true).
Proof.
  intros Hclaim.
  assert (Hsub : has_substring "Vip" "Vip.cbz")
    by (exists EmptyString, ".cbz"%string; reflexivity).
  specialize (Hclaim "Vip.cbz"%string Hsub vip_has_no_v_digit).
  vm_compute in Hclaim. discriminate.
Qed.

End ClassifierFacts.

(** ** Volume numbering *)

Section NumberingFacts.

Lemma leading_digits_only (s : string) : only_digits (leading_digits s) = true.
Proof.
  induction s as [|c s IH]; simpl; [reflexivity|].
  destruct (is_digit c) eqn:Hc; simpl; [rewrite Hc; exact IH|reflexivity].
Qed.

Lemma leading_digits_length (s : string) :
  (String.length (leading_digits s) <= String.length s)%nat.
Proof.
  induction s as [|c s IH]; simpl; [lia|]. destruct (is_digit c); simpl; lia.
Qed.

Lemma match_volume_digits (s digits : string) :
  match_volume s = Some digits ->
  only_digits digits = true /\ digits <> EmptyString
  /\ (String.length digits <= String.length s)%nat.
Proof.
  destruct s as [|c rest]; simpl; [discriminate|].
  destruct (letter_ci "V" "v" c); [|discriminate].
  pose proof (leading_digits_only rest) as Hd.
  pose proof (leading_digits_length rest) as Hlen.
  destruct (leading_digits rest); [discriminate|].
  intros [= <-]. split; [exact Hd|]. split; [discriminate|]. lia.
Qed.

(** A volume-tagged name always carries a number, and it is not negative
    (names are far shorter than the limit of [int] on digits). *)
Lemma volume_file_has_number (name : string) :
  (String.length name <= int_max_str_digits)%nat ->
  is_volume_file name = true ->
  exists n, extract_volume_number name = Ok (Some n) /\ 0 <= n.
Proof.
  unfold is_volume_file, extract_volume_number. rewrite bool_decide_eq_true.
  intros Hshort [digits Hfound]. rewrite Hfound.
  destruct (search_found _ _ _ Hfound) as (before & tail & -> & Hm).
  destruct (match_volume_digits _ _ Hm) as (Hd & Hne & Hlen).
  rewrite string_length_app in Hshort.
  destruct (py_int_digits digits Hd Hne ltac:(lia)) as (n & -> & Hn). eauto.
Qed.

Lemma classify_files_members (avoid_volumes : bool) (cbz_files : list string) :
  forall regular_files special_files volume_files,
    classify_files avoid_volumes cbz_files
    = (regular_files, special_files, volume_files) ->
    (forall f, f ∈ special_files <-> f ∈ cbz_files /\ is_special_file f = true)
    /\ (forall f, f ∈ volume_files <->
          f ∈ cbz_files /\ is_special_file f = false
          /\ avoid_volumes = true /\ is_volume_file f = true)
    /\ (forall f, f ∈ regular_files <->
          f ∈ cbz_files /\ is_special_file f = false
          /\ (avoid_volumes = false \/ is_volume_file f = false)).
Proof.
  induction cbz_files as [|cbz rest IH]; intros regular special volume; simpl.
  - intros [= <- <- <-]. split_and!; intros f; rewrite elem_of_nil; tauto.
  - destruct (classify_files avoid_volumes rest) as [[reg spe] vol].
    destruct (IH reg spe vol eq_refl) as (Hspe & Hvol & Hreg).
    destruct (is_special_file cbz) eqn:Hs;
      [|destruct avoid_volumes; simpl; [destruct (is_volume_file cbz) eqn:Hv|]];
      intros [= <- <- <-]; split_and!; intros f;
      rewrite ?elem_of_cons, ?Hspe, ?Hvol, ?Hreg;
      intuition (subst; auto; congruence).
Qed.

Lemma highest_volume_spec (volume_files : list string) :
  (forall f, f ∈ volume_files -> exists n, extract_volume_number f = Ok (Some n)) ->
  forall start : Z,
    exists highest : Z,
      highest_volume volume_files start = Ok highest
      /\ start <= highest
      /\ (forall f n, f ∈ volume_files -> extract_volume_number f = Ok (Some n) ->
            n <= highest)
      /\ (highest = start
          \/ exists f, f ∈ volume_files
               /\ extract_volume_number f = Ok (Some highest)).
Proof.
  induction volume_files as [|vol_file rest IH]; intros Hnum start; simpl.
  - exists start. split; [reflexivity|]. split; [lia|]. split; [|left; reflexivity].
    intros f n Hf. apply elem_of_nil in Hf. contradiction.
  - destruct (Hnum vol_file ltac:(left)) as (v & Hv). rewrite Hv. simpl.
    set (next := if start <? v then v else start).
    destruct (IH (fun f Hf => Hnum f ltac:(right; exact Hf)) next)
      as (highest & Hrun & Hge & Hall & Hatt).
    assert (Hnext : start <= next /\ v <= next /\ (next = start \/ next = v))
      by (unfold next; destruct (Z.ltb_spec start v); lia).
    exists highest. split; [exact Hrun|]. split; [lia|]. split.
    + intros f n Hf Hex. apply elem_of_cons in Hf as [->|Hf].
      * rewrite Hv in Hex. injection Hex as <-. lia.
      * eapply Hall; eassumption.
    + destruct Hatt as [Heq|(f & Hf & Hex)].
      * destruct Hnext as (_ & _ & [Hs|Hs]).
        -- left. lia.
        -- right. exists vol_file. split; [left|]. rewrite Hv. do 2 f_equal. lia.
      * right. exists f. split; [right; exact Hf|exact Hex].
Qed.

(** C5. With skip-existing-volume-files active, and file names no longer
    than the 4300 characters [int] would read (a file system allows far
    fewer), the files set aside as volume-tagged are the non-special names
    matching the volume pattern (special wins over volume-tagged); when
    there is at least one, numbering
    of the new volumes starts at [max + 1] for [max] the highest number
    extracted from them; without any, or when no extracted number is
    positive, it starts at 1.  For "A SP01.cbz", "A V002.cbz", "A 001.cbz",
    "A 002.cbz" the first is special, the second is skipped and the first
    new volume is "A V003.cbz". *)
Theorem new_volumes_start_after_highest
    (cbz_files regular_files special_files volume_files : list string) :
  Forall (fun f => (String.length f <= int_max_str_digits)%nat) cbz_files ->
  classify_files true cbz_files = (regular_files, special_files, volume_files) ->
  (forall f, f ∈ special_files <-> f ∈ cbz_files /\ is_special_file f = true)
  /\ (forall f, f ∈ volume_files <->
        f ∈ cbz_files /\ is_special_file f = false /\ is_volume_file f = true)
  /\ (volume_files <> [] ->
        exists (max_volume : Z) (found : list event),
          (exists f, f ∈ volume_files
                     /\ extract_volume_number f = Ok (Some max_volume))
          /\ (forall f, f ∈ volume_files ->
                exists n, extract_volume_number f = Ok (Some n)
                          /\ 0 <= n <= max_volume)
          /\ starting_volume true volume_files = Ok (found, max_volume + 1))
  /\ (volume_files = [] -> starting_volume true volume_files = Ok ([], 1))
  /\ ((forall f n, f ∈ volume_files -> extract_volume_number f = Ok (Some n) ->
         n <= 0) ->
        starting_volume true volume_files = Ok ([], 1))
  /\ classify_files true ["A SP01.cbz"; "A V002.cbz"; "A 001.cbz"; "A 002.cbz"]%string
     = (["A 001.cbz"; "A 002.cbz"], ["A SP01.cbz"], ["A V002.cbz"])%string
  /\ starting_volume true ["A V002.cbz"%string] = Ok ([InfoFoundExisting 2 3], 3)
  /\ output_name "A" 3 = "A V003.cbz"%string.
Proof.
  intros Hshort Hclass.
  destruct (classify_files_members true cbz_files _ _ _ Hclass) as (Hspe & Hvol & _).
  assert (Hnum : forall f, f ∈ volume_files ->
                   exists n, extract_volume_number f = Ok (Some n) /\ 0 <= n).
  { intros f Hf. apply Hvol in Hf as (Hin & _ & _ & Hv).
    apply volume_file_has_number; [|exact Hv].
    rewrite Forall_forall in Hshort. apply Hshort, Hin. }
  destruct (highest_volume_spec volume_files
              (fun f Hf => match Hnum f Hf with
                           | ex_intro _ n (conj Hn _) => ex_intro _ n Hn
                           end) 0)
    as (highest & Hrun & Hge & Hall & Hatt).
  split; [exact Hspe|]. split; [intros f; rewrite Hvol; tauto|].
  split; [|split; [|split]].
  - intros Hne. exists highest.
    assert (Hstart : exists found,
              starting_volume true volume_files = Ok (found, highest + 1)).
    { unfold starting_volume. destruct volume_files as [|v vs]; [congruence|].
      rewrite Hrun. simpl. destruct (Z.ltb_spec 0 highest); eexists; try reflexivity.
      do 2 f_equal. lia. }
    destruct Hstart as (found & Hstart). exists found.
    split; [|split; [|exact Hstart]].
    + destruct Hatt as [Hzero|Hatt]; [|exact Hatt].
      destruct volume_files as [|v vs]; [congruence|].
      destruct (Hnum v ltac:(left)) as (n & Hn & Hn0).
      exists v. split; [left|]. rewrite Hn. do 2 f_equal.
      pose proof (Hall v n ltac:(left) Hn). lia.
    + intros f Hf. destruct (Hnum f Hf) as (n & Hn & Hn0).
      exists n. split; [exact Hn|]. pose proof (Hall f n Hf Hn). lia.
  - intros ->. reflexivity.
  - intros Hnonpos. unfold starting_volume.
    destruct volume_files as [|v vs]; [reflexivity|]. rewrite Hrun. simpl.
    destruct (Z.ltb_spec 0 highest) as [Hpos|]; [|reflexivity].
    destruct Hatt as [Hzero|(f & Hf & Hex)]; [lia|].
    specialize (Hnonpos f _ Hf Hex). lia.
  - vm_compute. auto.
Qed.

Lemma new_volumes_start_after_highest_witness :
  (Forall (fun f => (String.length f <= int_max_str_digits)%nat)
     ["A SP01.cbz"; "A V002.cbz"; "A 001.cbz"; "A 002.cbz"]%string
   /\ classify_files true ["A SP01.cbz"; "A V002.cbz"; "A 001.cbz"; "A 002.cbz"]%string
      = (["A 001.cbz"; "A 002.cbz"], ["A SP01.cbz"], ["A V002.cbz"])%string)
  /\ exists (max_volume : Z) (found : list event),
       (exists f, f ∈ ["A V002.cbz"%string]
                  /\ extract_volume_number f = Ok (Some max_volume))
       /\ starting_volume true ["A V002.cbz"%string] = Ok (found, max_volume + 1).
Proof.
  assert (Hshort :
    Forall (fun f => (String.length f <= int_max_str_digits)%nat)
      ["A SP01.cbz"; "A V002.cbz"; "A 001.cbz"; "A 002.cbz"]%string)
    by (repeat constructor; apply Nat.leb_le; vm_compute; reflexivity).
  assert (Hclass :
    classify_files true ["A SP01.cbz"; "A V002.cbz"; "A 001.cbz"; "A 002.cbz"]%string
    = (["A 001.cbz"; "A 002.cbz"], ["A SP01.cbz"], ["A V002.cbz"])%string)
    by (vm_compute; reflexivity).
  split; [split; assumption|].
  destruct (new_volumes_start_after_highest _ _ _ _ Hshort Hclass)
    as (_ & _ & Hmax & _).
  destruct (Hmax ltac:(discriminate)) as (max_volume & found & Hatt & _ & Hstart).
  exists max_volume, found. split; assumption.
Defined.

(** The whole of [process_directory] on the example folder: the special
    is moved, the existing volume is left alone, and the two chapters
    become "A V003.cbz". *)
Lemma example_folder_run :
  let result := process_directory 0 Example.no_faults true Example.listing
                  "A" "2" true true true Example.folder in
  snd result = Ok tt
  /\ fs (fst result) !! "A V003.cbz"%string
     = Some (Archive [("page_001.JPG"%string, Example.data Byte.x04);
                      ("page_002.jpg"%string, Example.data Byte.x03)])
  /\ fs (fst result) !! "Specials/A SP01.cbz"%string
     = Some (Archive [("s.png"%string, Example.data Byte.x01)])
  /\ fs (fst result) !! "A V002.cbz"%string
     = Some (Archive [("v.png"%string, Example.data Byte.x02)])
  /\ fs (fst result) !! "A V001.cbz"%string = None.
Proof. vm_compute. auto. Qed.

End NumberingFacts.

(** ** Rebuilding an archive *)

Section TranscoderFacts.
Context `{Platform}.

Lemma renumber_length (first : Z) (images : list image) :
  length (renumber first images) = length images.
Proof.
  revert first. induction images as [|[n d] images IH]; intros first; simpl;
    [reflexivity|]. rewrite IH. reflexivity.
Qed.

Lemma renumber_lookup (images : list image) :
  forall (first : Z) (i : nat) (original_name : string) (data : list Byte.byte),
    images !! i = Some (original_name, data) ->
    renumber first images !! i
    = Some (page_name (first + Z.of_nat i) original_name, data).
Proof.
  induction images as [|[n d] images IH]; intros first i original_name data Hi.
  - destruct i; discriminate.
  - destruct i as [|i].
    + injection Hi as -> ->. cbn [renumber]. rewrite Z.add_0_r. reflexivity.
    + change (renumber (first + 1) images !! i
              = Some (page_name (first + Z.of_nat (S i)) original_name, data)).
      rewrite (IH (first + 1) i original_name data Hi). do 3 f_equal. lia.
Qed.

Lemma renumber_data (first : Z) (images : list image) :
  map snd (renumber first images) = map snd images.
Proof.
  revert first. induction images as [|[n d] images IH]; intros first; simpl;
    [reflexivity|]. rewrite IH. reflexivity.
Qed.

(** The [writestr] loop writes every page. *)
Lemma write_pages_all (images : list image) :
  forall (idx : Z) (written : list image),
    write_pages idx images written = written ++ renumber idx images.
Proof.
  induction images as [|[n d] images IH]; intros idx written; simpl.
  - rewrite app_nil_r. reflexivity.
  - rewrite IH, <- app_assoc. reflexivity.
Qed.

Lemma create_without_fault (output : string) (images : list image) (w : world) :
  create_cbz_from_memory NoFault output images w
  = ({| fs := <[output := Archive (renumber 1 images)]> (fs w);
        log := log w ++ [InfoCreated output (length images)] |}, Ok tt).
Proof.
  unfold create_cbz_from_memory. rewrite write_pages_all. reflexivity.
Qed.

(** C6. The archive written by [create_cbz_from_memory] (no write fault)
    has one entry per input pair, in the input order; entry [i] (from
    zero) carries the data of pair [i] unchanged and is named
    ["page_" + NNN + ext], where [ext] is [Path(original_name).suffix] and
    [NNN] is [i + 1] in decimal, padded with zeros to at least three
    digits. *)
Theorem rebuilt_archive_keeps_images (output : string)
    (image_data_list : list image) (w : world) :
  exists entries : list image,
    snd (create_cbz_from_memory NoFault output image_data_list w) = Ok tt
    /\ fs (fst (create_cbz_from_memory NoFault output image_data_list w)) !! output
       = Some (Archive entries)
    /\ length entries = length image_data_list
    /\ map snd entries = map snd image_data_list
    /\ forall (i : nat) (original_name : string) (data : list Byte.byte),
         image_data_list !! i = Some (original_name, data) ->
         entries !! i
         = Some ("page_" +:+ format_03d (Z.of_nat i + 1) +:+ suffix original_name,
                 data)
         /\ only_digits (format_03d (Z.of_nat i + 1)) = true
         /\ (3 <= String.length (format_03d (Z.of_nat i + 1)))%nat
         /\ int_unsigned (format_03d (Z.of_nat i + 1)) = Some (Z.of_nat i + 1)
         /\ format_03d (Z.of_nat i + 1)
            = zeros (3 - String.length (str_of_int (Z.of_nat i + 1)))
              +:+ str_of_int (Z.of_nat i + 1).
Proof.
  exists (renumber 1 image_data_list). rewrite create_without_fault. simpl.
  split; [reflexivity|]. split; [apply lookup_insert_eq|].
  split; [apply renumber_length|]. split; [apply renumber_data|].
  intros i original_name data Hi. split.
  - rewrite (renumber_lookup _ 1 i original_name data Hi).
    replace (1 + Z.of_nat i) with (Z.of_nat i + 1) by lia. reflexivity.
  - apply format_03d_spec. lia.
Qed.

End TranscoderFacts.

(** Two pages on the example platform: a nested name and an upper-case
    extension. *)
Example rebuilt_archive_example :
  fs (fst (create_cbz_from_memory NoFault "A V001.cbz"
             [("ch1/b.png"%string, Example.data Byte.x01);
              ("a.JPG"%string, Example.data Byte.x02)]
             {| fs := ∅; log := [] |})) !! "A V001.cbz"%string
  = Some (Archive [("page_001.png"%string, Example.data Byte.x01);
                   ("page_002.JPG"%string, Example.data Byte.x02)]).
Proof. vm_compute. reflexivity. Qed.

(** ** One batch of the directory processor *)

Section BatchFacts.
Context `{Platform}.

Lemma extract_batch_spec (batch : list string) :
  forall (all_images : list image) (w : world),
    extract_batch batch all_images w
    = ({| fs := fs w; log := log w ++ extraction_log (fs w) batch |},
       all_images ++ readable_images (fs w) batch).
Proof.
  induction batch as [|cbz_file rest IH]; intros all_images w.
  - simpl. rewrite !app_nil_r. destruct w; reflexivity.
  - cbn [extract_batch]. unfold extract_cbz_to_memory.
    unfold extraction_log, readable_images. cbn [flat_map].
    fold (extraction_log (fs w) rest). fold (readable_images (fs w) rest).
    destruct (fs w !! cbz_file) as [[entries|]|]; rewrite IH; simpl;
      rewrite <- !app_assoc; reflexivity.
Qed.

(** Deleting the sources: the log only grows, other files are untouched,
    and a file of the batch whose unlink does not fail is gone. *)
Lemma delete_sources_spec (F : faults) (batch : list string) :
  forall w : world,
    (exists deleted, log (delete_sources F batch w) = log w ++ deleted
       /\ forall f, f ∈ batch -> is_Some (fs w !! f) -> unlink_fails F f = false ->
            InfoDeleted f ∈ deleted)
    /\ (forall f, f ∉ batch -> fs (delete_sources F batch w) !! f = fs w !! f)
    /\ (forall f, fs w !! f = None -> fs (delete_sources F batch w) !! f = None)
    /\ (forall f, f ∈ batch -> unlink_fails F f = false ->
          fs (delete_sources F batch w) !! f = None).
Proof.
  induction batch as [|cbz_file rest IH]; intros w.
  - simpl. split; [|split; [|split]]; auto.
    + exists []. rewrite app_nil_r. split; [reflexivity|].
      intros f Hf. apply elem_of_nil in Hf. contradiction.
    + intros f Hf. apply elem_of_nil in Hf. contradiction.
  - cbn [delete_sources].
    set (w1 := match fs w !! cbz_file with
               | Some _ =>
                   if unlink_fails F cbz_file then say (ErrorDelete cbz_file) w
                   else say (InfoDeleted cbz_file)
                          (set_fs (delete cbz_file (fs w)) w)
               | None => say (ErrorDelete cbz_file) w
               end).
    assert (Hw1 : (exists e, log w1 = log w ++ [e]
                     /\ (is_Some (fs w !! cbz_file) -> unlink_fails F cbz_file = false ->
                           e = InfoDeleted cbz_file))
                  /\ (forall f, f <> cbz_file -> fs w1 !! f = fs w !! f)
                  /\ (forall f, fs w !! f = None -> fs w1 !! f = None)
                  /\ (unlink_fails F cbz_file = false -> fs w1 !! cbz_file = None)).
    { unfold w1. destruct (fs w !! cbz_file) as [c|] eqn:Hc.
      - destruct (unlink_fails F cbz_file) eqn:Hu; simpl.
        + split; [eexists; split; [reflexivity|discriminate]|].
          split_and!; [reflexivity|auto|discriminate].
        + split; [eexists; split; [reflexivity|auto]|].
          split; [intros f Hf; apply lookup_delete_ne; congruence|].
          split; [|intros _; apply lookup_delete_eq].
          intros f Hf. destruct (decide (cbz_file = f)) as [->|Hne];
            [apply lookup_delete_eq|rewrite lookup_delete_ne; assumption].
      - simpl. split; [eexists; split; [reflexivity|intros [? [=]]]|].
        split_and!; [reflexivity|auto|auto]. }
    destruct Hw1 as ((e & Hlog1 & He) & Hother1 & Hnone1 & Hgone1).
    destruct (IH w1) as ((deleted & Hlog & Hdel) & Hother & Hnone & Hgone).
    split; [|split; [|split]].
    + exists (e :: deleted). split.
      * rewrite Hlog, Hlog1, <- app_assoc. reflexivity.
      * intros f Hf Hsome Hu. destruct (decide (f = cbz_file)) as [->|Hne].
        -- rewrite (He Hsome Hu). left.
        -- right. apply elem_of_cons in Hf as [?|Hf]; [congruence|].
           apply Hdel; [assumption| |assumption]. rewrite Hother1; assumption.
    + intros f Hf. apply not_elem_of_cons in Hf as [Hne Hf].
      rewrite Hother, Hother1; auto.
    + intros f Hf. apply Hnone, Hnone1, Hf.
    + intros f Hf Hu. apply elem_of_cons in Hf as [->|Hf].
      * apply Hnone, Hgone1, Hu.
      * apply Hgone; assumption.
Qed.

Lemma readable_images_without (files : gmap string content) (corrupt : string)
    (batch : list string) :
  files !! corrupt = Some Unreadable ->
  readable_images files batch
  = readable_images files (filter (fun f => f <> corrupt) batch).
Proof.
  intros Hc. induction batch as [|f rest IH]; [reflexivity|].
  rewrite filter_cons. destruct (decide (f <> corrupt)) as [Hne|Heq].
  - unfold readable_images in *. cbn [flat_map]. rewrite IH. reflexivity.
  - assert (f = corrupt) as -> by (destruct (decide (f = corrupt)); tauto).
    unfold readable_images in *. cbn [flat_map]. rewrite Hc. exact IH.
Qed.

Lemma extraction_log_unreadable (files : gmap string content) (corrupt : string)
    (batch : list string) :
  corrupt ∈ batch -> files !! corrupt = Some Unreadable ->
  ErrorProcessing corrupt ∈ extraction_log files batch.
Proof.
  intros Hin Hc. unfold extraction_log. apply list_elem_of_In, in_flat_map.
  exists corrupt. split; [apply list_elem_of_In, Hin|].
  rewrite Hc. right. left. reflexivity.
Qed.

(** One iteration of the batch loop, after its extraction phase. *)
Lemma process_batch_unfold (F : faults) (folder_name : string)
    (delete_originals : bool) (regular_files : list string)
    (batch_index : nat) (batch_size : Z) (st : cursor) :
  let batch := slice regular_files (file_index st) (file_index st + batch_size) in
  let files := fs (cur_world st) in
  let w1 := {| fs := files;
               log := (log (cur_world st)
                       ++ [InfoProcessingBatch (volume_counter st) (length batch)])
                      ++ extraction_log files batch |} in
  process_batch F folder_name delete_originals regular_files batch_index batch_size st
  = match readable_images files batch with
    | [] =>
        {| cur_world := say (ErrorNoImages (volume_counter st)) w1;
           file_index := file_index st + batch_size;
           volume_counter := volume_counter st + 1 |}
    | _ :: _ =>
        match create_cbz_from_memory (write_fault_of F batch_index)
                (output_name folder_name (volume_counter st))
                (readable_images files batch) w1 with
        | (w2, Ok _) =>
            {| cur_world := if delete_originals
                            then delete_sources F batch w2 else w2;
               file_index := file_index st + batch_size;
               volume_counter := volume_counter st + 1 |}
        | (w2, _) =>
            {| cur_world := say (ErrorCreateVolume (volume_counter st)) w2;
               file_index := file_index st + batch_size;
               volume_counter := volume_counter st |}
        end
    end.
Proof.
  intros batch files w1. unfold process_batch. fold batch.
  rewrite extract_batch_spec. cbn [fs log say app]. fold files. reflexivity.
Qed.

(** C9. A batch with an unreadable source and at least one image from the
    others, sources to be deleted, output written without fault: the
    images are those of the readable files only, they become the output
    archive, and every file of the batch whose unlink succeeds is gone
    afterwards, the unreadable one included; its deletion is logged after
    the creation of the output. *)
Theorem corrupt_sources_are_deleted (F : faults) (folder_name : string)
    (regular_files : list string) (batch_index : nat) (batch_size : Z)
    (st : cursor) (corrupt : string) :
  let batch := slice regular_files (file_index st) (file_index st + batch_size) in
  let files := fs (cur_world st) in
  let images := readable_images files batch in
  let out := output_name folder_name (volume_counter st) in
  let st' := process_batch F folder_name true regular_files
               batch_index batch_size st in
  corrupt ∈ batch -> files !! corrupt = Some Unreadable ->
  images <> [] ->
  write_fault_of F batch_index = NoFault ->
  images = readable_images files (filter (fun f => f <> corrupt) batch)
  /\ (out ∉ batch ->
        fs (cur_world st') !! out = Some (Archive (renumber 1 images)))
  /\ (forall f, f ∈ batch -> unlink_fails F f = false ->
        fs (cur_world st') !! f = None)
  /\ (unlink_fails F corrupt = false ->
        fs (cur_world st') !! corrupt = None
        /\ exists before after : list event,
             log (cur_world st')
             = before ++ [InfoCreated out (length images)] ++ after
             /\ ErrorProcessing corrupt ∈ before
             /\ InfoDeleted corrupt ∈ after)
  /\ volume_counter st' = volume_counter st + 1.
Proof.
  intros batch files images out st' Hin Hcorrupt Himages Hfault.
  split; [apply readable_images_without, Hcorrupt|].
  unfold st'. rewrite process_batch_unfold. fold batch files images out.
  destruct images as [|first more] eqn:Hi; [congruence|]. rewrite <- Hi.
  rewrite Hfault, create_without_fault. cbn [fs log].
  match goal with
  | |- context [delete_sources F batch ?w] =>
      set (w2 := w); destruct (delete_sources_spec F batch w2)
        as ((deleted & Hlog & Hdel) & Hother & _ & Hgone)
  end.
  cbn [cur_world volume_counter].
  split; [|split; [|split; [|reflexivity]]].
  - intros Hout. rewrite (Hother out Hout). unfold w2. cbn [fs].
    apply lookup_insert_eq.
  - exact Hgone.
  - intros Hu. split; [apply Hgone; assumption|].
    eexists _, deleted. split; [|split].
    + rewrite Hlog. unfold w2. cbn [log]. rewrite <- app_assoc. reflexivity.
    + apply elem_of_app. right. apply extraction_log_unreadable; assumption.
    + apply Hdel; [assumption| |assumption]. unfold w2. cbn [fs].
      destruct (decide (out = corrupt)) as [->|Hne].
      * rewrite lookup_insert_eq. eauto.
      * rewrite lookup_insert_ne by exact Hne. fold files. rewrite Hcorrupt. eauto.
Qed.


End BatchFacts.

(** The same on the example folder. *)

Lemma corrupt_sources_are_deleted_witness :
  let st' := process_batch Example.no_faults "A" true ExampleRun.regular_files
               0 2 ExampleRun.start in
  ("A 002.cbz"%string ∈ slice ExampleRun.regular_files 0 (0 + 2)
   /\ fs Example.folder !! "A 002.cbz"%string = Some Unreadable
   /\ readable_images (fs Example.folder)
        (slice ExampleRun.regular_files 0 (0 + 2)) <> []
   /\ write_fault_of Example.no_faults 0 = NoFault)
  /\ fs (cur_world st') !! "A 002.cbz"%string = None.
Proof.
  assert (Hin : "A 002.cbz"%string ∈ slice ExampleRun.regular_files 0 (0 + 2)).
  { change ("A 002.cbz"%string ∈ ["A 001.cbz"; "A 002.cbz"]%string).
    apply elem_of_cons. right. apply elem_of_cons. left. reflexivity. }
  assert (Hcorrupt : fs Example.folder !! "A 002.cbz"%string = Some Unreadable)
    by (vm_compute; reflexivity).
  assert (Himages : readable_images (fs Example.folder)
                      (slice ExampleRun.regular_files 0 (0 + 2)) <> [])
    by (vm_compute; discriminate).
  split; [repeat split; assumption|].
  exact (proj1 (proj1 (proj2 (proj2 (proj2
           (corrupt_sources_are_deleted Example.no_faults "A"
              ExampleRun.regular_files 0 2 ExampleRun.start "A 002.cbz"
              Hin Hcorrupt Himages eq_refl)))) eq_refl)).
Defined.




(** ** Sizes the parser lets through *)

Section ParserFacts.

(** Any single token that [int] accepts is returned as it is read, with no
    test of its sign. *)
Lemma parse_single_token (token : string) (z : Z) :
  contains_comma (strip token) = false ->
  py_int (strip token) = Some z ->
  parse_batch_sizes token = Ok ([z], true).
Proof.
  intros Hcomma Hint. unfold parse_batch_sizes. rewrite Hcomma, Hint. reflexivity.
Qed.

(** C10. [parse_batch_sizes] returns the decimal spelling of any integer
    [z] (of no more characters than the limit of [int] on digits) as the
    repeating size [z], zero and negative values included, and a list such
    as "2,0,-1" verbatim; with the repeating size 0 and [fileCount > 0] the
    planner then raises [ZeroDivisionError], with or without remainder
    suppression, and the exception leaves [process_directory]. *)
Theorem nonpositive_sizes_are_accepted (z fileCount : Z) (fuel : nat)
    (no_extra : bool) :
  (String.length (str_of_int z) <= int_max_str_digits)%nat -> 0 < fileCount ->
  parse_batch_sizes (str_of_int z) = Ok ([z], true)
  /\ parse_batch_sizes "0" = Ok ([0], true)
  /\ parse_batch_sizes "-3" = Ok ([-3], true)
  /\ parse_batch_sizes "2,0,-1" = Ok ([2; 0; -1], false)
  /\ plan_of fuel fileCount [0] true no_extra = Raise ZeroDivisionError
  /\ snd (process_directory fuel Example.no_faults true Example.listing
            "A" "0" no_extra true true Example.folder)
     = Raise ZeroDivisionError.
Proof.
  intros Hshort _. split_and!.
  - apply parse_single_token; rewrite strip_str_of_int;
      [apply str_of_int_no_comma|apply py_int_str_of_int, Hshort].
  - reflexivity.
  - reflexivity.
  - reflexivity.
  - destruct no_extra; reflexivity.
  - destruct no_extra; vm_compute; reflexivity.
Qed.

Lemma nonpositive_sizes_are_accepted_witness :
  ((String.length (str_of_int (-3)) <= int_max_str_digits)%nat /\ 0 < 5)
  /\ parse_batch_sizes (str_of_int (-3)) = Ok ([-3], true)
  /\ plan_of 0 5 [0] true true = Raise ZeroDivisionError.
Proof.
  assert (Hsmall : (String.length (str_of_int (-3)) <= int_max_str_digits)%nat)
    by (apply Nat.leb_le; vm_compute; reflexivity).
  assert (Hfiles : 0 < 5) by lia.
  split; [split; assumption|].
  pose proof (nonpositive_sizes_are_accepted (-3) 5 0 true Hsmall Hfiles)
    as (Hparse & _ & _ & _ & Hplan & _).
  split; [exact Hparse|exact Hplan].
Defined.

End ParserFacts.

(** * Further properties of the code *)

(** ** The planner on sizes the grammar excludes *)

Section PlannerEdges.

(** X1. Explicit sizes whose average is zero or less (as "0,0" or "3,-3"),
    more files than they cover, remainder not suppressed: the averaging
    loop never ends, whatever the fuel. *)
Theorem planner_never_returns_without_progress (fuel : nat) (fileCount : Z)
    (spec : list Z) :
  spec <> [] ->
  sum_sizes spec / Z.of_nat (length spec) <= 0 ->
  sum_sizes spec < fileCount ->
  plan_of fuel fileCount spec false false = OutOfFuel.
Proof.
  intros Hne Havg Hmore. unfold plan_of, calculate_batches, floordiv.
  destruct (Z.leb_spec fileCount (sum_sizes spec)); [lia|].
  destruct (Z.eqb_spec (Z.of_nat (length spec)) 0) as [Hz|_].
  { destruct spec; [congruence|simpl in Hz; lia]. }
  cbn [snd]. apply append_average_diverges; lia.
Qed.

Lemma planner_never_returns_without_progress_witness :
  ([0; 0] <> [] /\ sum_sizes [0; 0] / Z.of_nat (length [0; 0]) <= 0
   /\ sum_sizes [0; 0] < 1)
  /\ parse_batch_sizes "0,0" = Ok ([0; 0], false)
  /\ plan_of 1000 1 [0; 0] false false = OutOfFuel.
Proof.
  assert (Hne : [0; 0] <> ([] : list Z)) by discriminate.
  assert (Havg : sum_sizes [0; 0] / Z.of_nat (length [0; 0]) <= 0)
    by (vm_compute; discriminate).
  assert (Hmore : sum_sizes [0; 0] < 1) by reflexivity.
  split; [repeat split; assumption|]. split; [reflexivity|].
  exact (planner_never_returns_without_progress 1000 1 [0; 0] Hne Havg Hmore).
Defined.

(** X2. With the remainder suppressed, positive sizes and either mode, the
    plan never covers more files than there are; in repeating mode fewer
    than one batch of files is left over. *)
Theorem suppressed_plan_within_files (fuel : nat) (fileCount : Z)
    (spec : list Z) (is_repeating : bool) :
  0 <= fileCount -> positive_sizes spec -> spec <> [] ->
  exists plan : list Z,
    plan_of fuel fileCount spec is_repeating true = Ok plan
    /\ 0 <= sum_sizes plan <= fileCount
    /\ (is_repeating = true ->
        forall n, head spec = Some n -> fileCount - sum_sizes plan < n).
Proof.
  intros Hcount Hpos Hne. destruct is_repeating.
  - destruct spec as [|n rest]; [congruence|].
    assert (Hn : 0 < n) by (inversion Hpos; assumption).
    exists (replicate (Z.to_nat (fileCount / n)) n).
    pose proof (Z.div_mod fileCount n ltac:(lia)) as Hdm.
    pose proof (Z.mod_pos_bound fileCount n Hn) as Hmod.
    assert (0 <= fileCount / n) by (apply Z.div_pos; lia).
    split.
    { unfold plan_of, calculate_batches, floordiv.
      destruct (Z.eqb_spec n 0); [lia|reflexivity]. }
    rewrite sum_sizes_replicate, Z2Nat.id by lia.
    split; [nia|]. intros _ m [= <-]. nia.
  - pose proof (sum_sizes_positive spec Hpos) as Htotal.
    destruct (Z_le_gt_dec fileCount (sum_sizes spec)) as [Hle|Hgt].
    + exists (clamp_sizes spec fileCount).
      destruct (clamp_sizes_spec spec Hpos fileCount ltac:(lia)) as (_ & Hsum & _).
      split; [|split; [lia|discriminate]].
      unfold plan_of, calculate_batches.
      destruct (Z.leb_spec fileCount (sum_sizes spec)); [reflexivity|lia].
    + exists spec. split; [|split; [lia|discriminate]].
      unfold plan_of, calculate_batches.
      destruct (Z.leb_spec fileCount (sum_sizes spec)); [lia|reflexivity].
Qed.

Lemma suppressed_plan_within_files_witness :
  (0 <= 7 /\ positive_sizes [3] /\ [3] <> [])
  /\ exists plan : list Z,
       plan_of 0 7 [3] true true = Ok plan /\ 0 <= sum_sizes plan <= 7.
Proof.
  assert (Hpos : positive_sizes [3]) by (repeat constructor).
  assert (Hne : [3] <> ([] : list Z)) by discriminate.
  split; [repeat split; [lia|assumption|assumption]|].
  destruct (suppressed_plan_within_files 0 7 [3] true ltac:(lia) Hpos Hne)
    as (plan & Hplan & Hsum & _).
  exists plan. split; assumption.
Defined.

(** X3. A negative repeating size plans nothing: the plan is empty with
    the remainder suppressed, and also without suppression once there are
    two files or more. *)
Theorem negative_repeating_size_plans_nothing (fuel : nat) (fileCount n : Z)
    (no_extra : bool) :
  n < 0 -> 0 <= fileCount -> no_extra = true \/ 2 <= fileCount ->
  plan_of fuel fileCount [n] true no_extra = Ok [].
Proof.
  intros Hn Hcount Hcase. unfold plan_of, calculate_batches, floordiv.
  destruct (Z.eqb_spec n 0); [lia|].
  assert (Hempty : forall a, a / n <= 0 -> list_times n (a / n) = []).
  { intros a Ha. unfold list_times.
    replace (Z.to_nat (a / n)) with O by lia. reflexivity. }
  destruct no_extra; cbn [snd]; f_equal; apply Hempty.
  - pose proof (Z.div_mod fileCount n ltac:(lia)) as Hdm.
    pose proof (Z.mod_neg_bound fileCount n Hn) as Hmod. nia.
  - destruct Hcase as [|Htwo]; [discriminate|].
    pose proof (Z.div_mod (fileCount + n - 1) n ltac:(lia)) as Hdm.
    pose proof (Z.mod_neg_bound (fileCount + n - 1) n Hn) as Hmod. nia.
Qed.

Lemma negative_repeating_size_plans_nothing_witness :
  (-2 < 0 /\ 0 <= 7 /\ (false = true \/ 2 <= 7))
  /\ parse_batch_sizes "-2" = Ok ([-2], true)
  /\ plan_of 0 7 [-2] true false = Ok [].
Proof.
  assert (Hn : -2 < 0) by lia.
  assert (Hcount : 0 <= 7) by lia.
  assert (Hcase : false = true \/ 2 <= 7) by (right; lia).
  split; [split; [exact Hn|split; [exact Hcount|exact Hcase]]|].
  split; [reflexivity|].
  exact (negative_repeating_size_plans_nothing 0 7 (-2) false Hn Hcount Hcase).
Defined.

End PlannerEdges.

(** ** What the parser returns *)

Section ParserShape.

Lemma split_comma_nonempty (s : string) : split_comma s <> [].
Proof.
  destruct s as [|c s]; simpl; [discriminate|].
  destruct (Ascii.eqb c ","); [discriminate|].
  destruct (split_comma s); discriminate.
Qed.

Lemma split_comma_pieces (s : string) :
  contains_comma s = true -> (2 <= length (split_comma s))%nat.
Proof.
  induction s as [|c s IH]; simpl; [discriminate|].
  destruct (Ascii.eqb c ",").
  - intros _. pose proof (split_comma_nonempty s).
    destruct (split_comma s); [congruence|simpl; lia].
  - simpl. intros Hs. specialize (IH Hs).
    destruct (split_comma s); simpl in *; lia.
Qed.

(** X4. Whatever [parse_batch_sizes] returns is a usable size list: one
    size in repeating mode, two or more in list mode, never none. *)
Theorem parsed_sizes_are_never_empty (batch_str : string) (sizes : list Z)
    (is_repeating : bool) :
  parse_batch_sizes batch_str = Ok (sizes, is_repeating) ->
  if is_repeating then length sizes = 1%nat else (2 <= length sizes)%nat.
Proof.
  unfold parse_batch_sizes.
  destruct (contains_comma (strip batch_str)) eqn:Hcomma.
  - destruct (mapM _ _) as [parsed|] eqn:Hmap; [|discriminate].
    intros [= <- <-]. apply length_mapM in Hmap. rewrite <- Hmap.
    apply split_comma_pieces, Hcomma.
  - destruct (py_int _); [|discriminate]. intros [= <- <-]. reflexivity.
Qed.

Lemma parsed_sizes_are_never_empty_witness :
  parse_batch_sizes " 3, 4 ,5 " = Ok ([3; 4; 5], false)
  /\ (2 <= length [3; 4; 5]%Z)%nat.
Proof.
  assert (Hparse : parse_batch_sizes " 3, 4 ,5 " = Ok ([3; 4; 5], false))
    by (vm_compute; reflexivity).
  split; [exact Hparse|].
  exact (parsed_sizes_are_never_empty " 3, 4 ,5 " [3; 4; 5] false Hparse).
Defined.

Lemma all_chars_app (p : ascii -> bool) (s t : string) :
  all_chars p (s +:+ t) = all_chars p s && all_chars p t.
Proof.
  induction s as [|c s IH]; simpl; [reflexivity|]. rewrite IH, andb_assoc. reflexivity.
Qed.

Lemma digits_all_chars (p : ascii -> bool) (s : string) :
  (forall c, is_digit c = true -> p c = true) ->
  only_digits s = true -> all_chars p s = true.
Proof.
  intros Hp. induction s as [|c s IH]; simpl; [reflexivity|].
  rewrite andb_true_iff. intros [Hc Hs]. rewrite (Hp c Hc), (IH Hs). reflexivity.
Qed.

Lemma str_of_int_chars (p : ascii -> bool) (z : Z) :
  (forall c, is_digit c = true -> p c = true) -> p "-"%char = true ->
  all_chars p (str_of_int z) = true.
Proof.
  intros Hp Hminus. destruct (str_of_int_shape z) as (digits & Hd & _ & _ & ->).
  destruct (z <? 0); simpl; rewrite ?Hminus; apply digits_all_chars; assumption.
Qed.

Lemma join_commas_chars (p : ascii -> bool) (pieces : list string) :
  p ","%char = true -> Forall (fun piece => all_chars p piece = true) pieces ->
  all_chars p (join_commas pieces) = true.
Proof.
  intros Hcomma. induction 1 as [|piece rest Hpiece _ IH]; [reflexivity|].
  destruct rest as [|next rest]; [exact Hpiece|].
  change (all_chars p (piece +:+ String "," (join_commas (next :: rest))) = true).
  rewrite all_chars_app, Hpiece. simpl all_chars at 1. rewrite Hcomma. exact IH.
Qed.

Lemma strip_kept (s : string) :
  all_chars not_space s = true -> strip s = s.
Proof.
  intros Hs. unfold strip, strip_by.
  assert (Hl : lstrip is_space s = s).
  { destruct s as [|c s]; [reflexivity|]. simpl in *.
    apply andb_true_iff in Hs as [Hc _]. unfold not_space in Hc.
    destruct (is_space c); [discriminate|reflexivity]. }
  rewrite Hl. clear Hl. induction s as [|c s IH]; [reflexivity|].
  simpl in *. apply andb_true_iff in Hs as [Hc Hs]. rewrite (IH Hs).
  unfold not_space in Hc. destruct s; [|reflexivity].
  destruct (is_space c); [discriminate|reflexivity].
Qed.

Lemma split_comma_whole (s : string) :
  all_chars not_comma s = true -> split_comma s = [s].
Proof.
  induction s as [|c s IH]; simpl; [reflexivity|].
  rewrite andb_true_iff. unfold not_comma at 1. intros [Hc Hs].
  destruct (Ascii.eqb c ","); [discriminate|]. rewrite (IH Hs). reflexivity.
Qed.

Lemma split_comma_first (piece rest : string) :
  all_chars not_comma piece = true ->
  split_comma (piece +:+ String "," rest) = piece :: split_comma rest.
Proof.
  induction piece as [|c piece IH]; simpl; [reflexivity|].
  rewrite andb_true_iff. unfold not_comma at 1. intros [Hc Hs].
  destruct (Ascii.eqb c ","); [discriminate|]. rewrite (IH Hs). reflexivity.
Qed.

Lemma split_join_commas (pieces : list string) :
  pieces <> [] -> Forall (fun piece => all_chars not_comma piece = true) pieces ->
  split_comma (join_commas pieces) = pieces.
Proof.
  intros Hne Hall. induction Hall as [|piece rest Hpiece _ IH]; [congruence|].
  destruct rest as [|next rest]; [apply split_comma_whole, Hpiece|].
  change (split_comma (piece +:+ String "," (join_commas (next :: rest)))
          = piece :: next :: rest).
  rewrite (split_comma_first _ _ Hpiece), IH by discriminate. reflexivity.
Qed.

Lemma comma_after (piece rest : string) :
  contains_comma (piece +:+ String "," rest) = true.
Proof.
  induction piece as [|c piece IH]; simpl; [reflexivity|].
  rewrite IH. apply orb_true_r.
Qed.

Lemma parse_each_spelling (sizes : list Z) :
  Forall (fun z => (String.length (str_of_int z) <= int_max_str_digits)%nat) sizes ->
  mapM (fun x => py_int (strip x)) (str_of_int <$> sizes) = Some sizes.
Proof.
  intros Hshort. apply mapM_Some. induction Hshort as [|z sizes Hz _ IH]; simpl.
  - constructor.
  - constructor; [|exact IH]. rewrite strip_str_of_int. apply py_int_str_of_int, Hz.
Qed.

(** X5. Writing two or more integers in decimal, joined by commas, and
    parsing the result gives the same integers back, in order, in list
    mode (each spelling within the limit of [int] on digits). *)
Theorem parse_joined_sizes (sizes : list Z) :
  (2 <= length sizes)%nat ->
  Forall (fun z => (String.length (str_of_int z) <= int_max_str_digits)%nat) sizes ->
  parse_batch_sizes (join_commas (str_of_int <$> sizes)) = Ok (sizes, false).
Proof.
  intros Hlen Hshort. unfold parse_batch_sizes.
  assert (Hspace : all_chars not_space (join_commas (str_of_int <$> sizes)) = true).
  { apply join_commas_chars; [reflexivity|]. apply Forall_fmap, Forall_forall.
    intros z _. apply str_of_int_chars; [|reflexivity].
    intros c Hc. unfold not_space. rewrite (digit_is_not_space c Hc). reflexivity. }
  assert (Hcomma : Forall (fun piece => all_chars not_comma piece = true)
                     (str_of_int <$> sizes)).
  { apply Forall_fmap, Forall_forall. intros z _.
    apply str_of_int_chars; [|reflexivity].
    intros c Hc. unfold not_comma. rewrite (digit_is_not_comma c Hc). reflexivity. }
  rewrite (strip_kept _ Hspace).
  assert (Hhas : contains_comma (join_commas (str_of_int <$> sizes)) = true).
  { destruct sizes as [|a [|b rest]]; simpl in Hlen; try lia.
    apply comma_after. }
  rewrite Hhas, split_join_commas; [|destruct sizes; [simpl in Hlen; lia|discriminate]|exact Hcomma].
  rewrite (parse_each_spelling sizes Hshort). reflexivity.
Qed.

Lemma parse_joined_sizes_witness :
  ((2 <= length [3; 0; -4]%Z)%nat
   /\ Forall (fun z => (String.length (str_of_int z) <= int_max_str_digits)%nat)
        [3; 0; -4])
  /\ join_commas (str_of_int <$> [3; 0; -4]) = "3,0,-4"%string
  /\ parse_batch_sizes "3,0,-4" = Ok ([3; 0; -4], false).
Proof.
  assert (Hlen : (2 <= length [3; 0; -4]%Z)%nat) by (simpl; lia).
  assert (Hshort :
    Forall (fun z => (String.length (str_of_int z) <= int_max_str_digits)%nat)
      [3; 0; -4])
    by (repeat constructor; apply Nat.leb_le; vm_compute; reflexivity).
  split; [split; assumption|]. split; [reflexivity|].
  exact (parse_joined_sizes [3; 0; -4] Hlen Hshort).
Defined.

End ParserShape.

(** ** More on the classifier *)

Section ClassifierMore.

Lemma match_special_iff (s : string) :
  is_Some (match_special s) <->
  exists (a b c d : ascii) (after : string),
    s = String a (String b (String c (String d after)))
    /\ letter_ci "S" "s" a = true /\ letter_ci "P" "p" b = true
    /\ is_digit c = true /\ is_digit d = true.
Proof.
  split.
  - destruct s as [|a [|b [|c [|d after]]]]; simpl;
      try (intros [? Hno]; discriminate Hno).
    destruct (letter_ci "S" "s" a) eqn:Ha; simpl;
      [|intros [? Hno]; discriminate Hno].
    destruct (letter_ci "P" "p" b) eqn:Hb; simpl;
      [|intros [? Hno]; discriminate Hno].
    destruct (is_digit c) eqn:Hc; simpl; [|intros [? Hno]; discriminate Hno].
    destruct (is_digit d) eqn:Hd; simpl; [|intros [? Hno]; discriminate Hno].
    intros _. exists a, b, c, d, after. auto.
  - intros (a & b & c & d & after & -> & Ha & Hb & Hc & Hd). simpl.
    rewrite Ha, Hb, Hc, Hd. eauto.
Qed.

(** X6. On names whose characters all have code points below 256 (the
    names [string] holds), [is_special_file] answers true exactly on those
    in which some S, P (either ASCII case) is directly followed by two of
    the digits 0 to 9; what comes before or after, further digits
    included, does not matter. *)
Theorem is_special_file_iff (name : string) :
  is_special_file name = true <-> sp_digits_occurrence name.
Proof.
  unfold is_special_file. rewrite bool_decide_eq_true. split.
  - intros [r Hr]. destruct (search_found _ _ _ Hr) as (before & tail & -> & Hm).
    destruct (proj1 (match_special_iff tail) (ex_intro _ r Hm))
      as (a & b & c & d & after & -> & Ha & Hb & Hc & Hd).
    exists before, a, b, c, d, after. auto.
  - intros (before & a & b & c & d & after & -> & Ha & Hb & Hc & Hd).
    apply search_finds, match_special_iff. exists a, b, c, d, after. auto.
Qed.

(** X7. The two volume functions agree: [extract_volume_number] returns
    [None] exactly on the names [is_volume_file] rejects. *)
Theorem no_number_iff_not_volume (name : string) :
  extract_volume_number name = Ok None <-> is_volume_file name = false.
Proof.
  unfold extract_volume_number, is_volume_file.
  rewrite bool_decide_eq_false.
  destruct (search match_volume name) as [digits|].
  - split.
    + destruct (py_int digits); discriminate.
    + intros Hno. exfalso. apply Hno. eauto.
  - split; [intros _ [? [=]]|reflexivity].
Qed.

Lemma leading_digits_app (digits rest : string) :
  only_digits digits = true -> leading_digits rest = EmptyString ->
  leading_digits (digits +:+ rest) = digits.
Proof.
  intros Hd Hrest. induction digits as [|c digits IH]; simpl in *; [exact Hrest|].
  apply andb_true_iff in Hd as [Hc Hd]. rewrite Hc, (IH Hd). reflexivity.
Qed.

Lemma search_skips {A} (m : string -> option A) (before rest : string) :
  (forall a b, before = a +:+ b -> b <> EmptyString -> m (b +:+ rest) = None) ->
  search m (before +:+ rest) = search m rest.
Proof.
  induction before as [|c before IH]; intros Hnone; [reflexivity|].
  pose proof (Hnone EmptyString (String c before) eq_refl ltac:(discriminate))
    as Hhere.
  change (String c before +:+ rest) with (String c (before +:+ rest)) in *.
  cbn [search]. rewrite Hhere.
  apply IH. intros a b -> Hb. apply (Hnone (String c a) b); [reflexivity|exact Hb].
Qed.

Lemma no_volume_match_inside (folder rest : string) :
  is_volume_file folder = false -> leading_digits rest = EmptyString ->
  forall a b, folder = a +:+ b -> b <> EmptyString ->
    match_volume (b +:+ rest) = None.
Proof.
  intros Hfolder Hrest a b -> Hb.
  destruct b as [|c b]; [congruence|].
  change (String c b +:+ rest) with (String c (b +:+ rest)). cbn [match_volume].
  destruct (letter_ci "V" "v" c) eqn:Hc; [|reflexivity].
  destruct b as [|d b].
  { change (EmptyString +:+ rest) with rest. rewrite Hrest. reflexivity. }
  change (String d b +:+ rest) with (String d (b +:+ rest)). cbn [leading_digits].
  destruct (is_digit d) eqn:Hd; [|reflexivity].
  exfalso. assert (Hv : is_volume_file (a +:+ String c (String d b)) = true).
  { apply is_volume_file_iff. exists a, c, d, b. auto. }
  congruence.
Qed.

Lemma string_app_assoc (a b c : string) :
  (a +:+ b) +:+ c = a +:+ (b +:+ c).
Proof.
  induction a as [|x a IH]; [reflexivity|].
  change (String x ((a +:+ b) +:+ c) = String x (a +:+ (b +:+ c))).
  rewrite IH. reflexivity.
Qed.

Lemma py_int_of_digits (digits : string) (n : Z) :
  only_digits digits = true -> digits <> EmptyString ->
  (String.length digits <= int_max_str_digits)%nat ->
  int_unsigned digits = Some n -> py_int digits = Some n.
Proof.
  intros Hd Hne Hlen Hval. unfold py_int.
  rewrite (strip_by_digits _ digit_is_not_int_space _ Hd).
  rewrite <- (int_numeral_short _ Hlen) in Hval.
  destruct digits as [|c t]; [congruence|].
  assert (Hc : is_digit c = true) by (simpl in Hd; apply andb_true_iff in Hd; tauto).
  destruct (digit_is_not_sign c Hc) as [-> ->]. exact Hval.
Qed.

Lemma format_03d_nonempty (n : Z) : 0 <= n -> format_03d n <> EmptyString.
Proof.
  intros Hn Hempty. destruct (format_03d_spec n Hn) as (_ & Hlen & _).
  rewrite Hempty in Hlen. simpl in Hlen. lia.
Qed.

Lemma volume_found_in_output (folder_name : string) (n : Z) :
  0 <= n -> is_volume_file folder_name = false ->
  search match_volume (output_name folder_name n) = Some (format_03d n).
Proof.
  intros Hn Hfolder. unfold output_name.
  destruct (format_03d_spec n Hn) as (Hd & _ & _ & _).
  pose proof (format_03d_nonempty n Hn) as Hne.
  rewrite search_skips by (apply no_volume_match_inside; [exact Hfolder|reflexivity]).
  change (" V" +:+ format_03d n +:+ ".cbz")
    with (String " " (String "V" (format_03d n +:+ ".cbz"))).
  cbn [search match_volume letter_ci].
  change (Ascii.eqb " " "V" || Ascii.eqb " " "v") with false. cbv iota.
  change (Ascii.eqb "V" "V" || Ascii.eqb "V" "v") with true. cbv iota.
  rewrite (leading_digits_app _ ".cbz" Hd eq_refl).
  destruct (format_03d n); [congruence|reflexivity].
Qed.

(** X8. A volume the tool writes is recognised on the next run: its name
    is volume-tagged whatever the folder name, and when the folder name
    itself has no V followed by a digit, the number extracted from it is
    the volume number it was written with. *)
Theorem written_volume_is_recognised (folder_name : string) (n : Z) :
  0 <= n ->
  (String.length (format_03d n) <= int_max_str_digits)%nat ->
  is_volume_file (output_name folder_name n) = true
  /\ (is_volume_file folder_name = false ->
      extract_volume_number (output_name folder_name n) = Ok (Some n)).
Proof.
  intros Hn Hlen. destruct (format_03d_spec n Hn) as (Hd & _ & Hval & _).
  pose proof (format_03d_nonempty n Hn) as Hne. split.
  - apply is_volume_file_iff. unfold output_name.
    destruct (format_03d n) as [|d rest] eqn:Hf; [congruence|].
    exists (folder_name +:+ " "), "V"%char, d, (rest +:+ ".cbz").
    split; [|split; [reflexivity|simpl in Hd; apply andb_true_iff in Hd; tauto]].
    rewrite string_app_assoc. reflexivity.
  - intros Hfolder. unfold extract_volume_number.
    rewrite (volume_found_in_output folder_name n Hn Hfolder).
    rewrite (py_int_of_digits _ n Hd Hne Hlen Hval). reflexivity.
Qed.

Lemma written_volume_is_recognised_witness :
  (0 <= 12 /\ (String.length (format_03d 12) <= int_max_str_digits)%nat)
  /\ output_name "A" 12 = "A V012.cbz"%string
  /\ is_volume_file "A V012.cbz" = true.
Proof.
  assert (Hn : 0 <= 12) by lia.
  assert (Hlen : (String.length (format_03d 12) <= int_max_str_digits)%nat)
    by (apply Nat.leb_le; vm_compute; reflexivity).
  split; [split; assumption|]. split; [reflexivity|].
  exact (proj1 (written_volume_is_recognised "A" 12 Hn Hlen)).
Defined.

Lemma append_cancel (prefix s t : string) :
  prefix +:+ s = prefix +:+ t -> s = t.
Proof.
  induction prefix as [|c prefix IH]; simpl; [auto|]. intros [= Heq]. auto.
Qed.

Lemma output_name_number (folder_name : string) (a b : Z) :
  0 <= a -> 0 <= b ->
  output_name folder_name a = output_name folder_name b -> a = b.
Proof.
  intros Ha Hb Hsame. unfold output_name in Hsame.
  apply append_cancel in Hsame.
  change (String " " (String "V" (format_03d a +:+ ".cbz"))
          = String " " (String "V" (format_03d b +:+ ".cbz"))) in Hsame.
  injection Hsame as Hsame.
  destruct (format_03d_spec a Ha) as (Hda & _ & Hva & _).
  destruct (format_03d_spec b Hb) as (Hdb & _ & Hvb & _).
  assert (Hfmt : format_03d a = format_03d b).
  { rewrite <- (leading_digits_app (format_03d a) ".cbz" Hda eq_refl).
    rewrite <- (leading_digits_app (format_03d b) ".cbz" Hdb eq_refl).
    rewrite Hsame. reflexivity. }
  rewrite Hfmt, Hvb in Hva. congruence.
Qed.

(** X9. Two different volume numbers never give the same output name in
    a folder, also beyond V999 where the number takes more than three
    digits. *)
Theorem output_names_differ (folder_name : string) (a b : Z) :
  0 <= a -> 0 <= b -> a <> b ->
  output_name folder_name a <> output_name folder_name b.
Proof.
  intros Ha Hb Hab Hsame. apply Hab.
  exact (output_name_number folder_name a b Ha Hb Hsame).
Qed.

Lemma output_names_differ_witness :
  (0 <= 100 /\ 0 <= 1000 /\ 100 <> 1000)
  /\ output_name "A" 100 <> output_name "A" 1000.
Proof.
  assert (Ha : 0 <= 100) by lia.
  assert (Hb : 0 <= 1000) by lia.
  assert (Hab : 100 <> 1000) by lia.
  split; [split; [exact Ha|split; [exact Hb|exact Hab]]|].
  exact (output_names_differ "A" 100 1000 Ha Hb Hab).
Defined.

End ClassifierMore.

(** ** Extraction and page names *)

Section TranscoderMore.
Context `{Platform}.

Lemma by_name_transitive : Transitive by_name.
Proof.
  intros a b c Hab Hbc. unfold by_name in *.
  apply Is_true_true. apply Is_true_true in Hab, Hbc.
  exact (transitivity (R := String.le) Hab Hbc).
Qed.

Lemma insert_by_name_permutation (x : image) (sorted : list image) :
  insert_by_name x sorted ≡ₚ x :: sorted.
Proof.
  induction sorted as [|y rest IH]; simpl; [reflexivity|].
  destruct (String.leb (fst x) (fst y)); [reflexivity|].
  rewrite IH. apply Permutation_swap.
Qed.

Lemma insert_by_name_sorted (x : image) (sorted : list image) :
  Sorted by_name sorted -> Sorted by_name (insert_by_name x sorted).
Proof.
  induction 1 as [|y rest Hrest IH Hhd]; simpl.
  - repeat constructor.
  - destruct (String.leb (fst x) (fst y)) eqn:Hxy.
    + constructor; [constructor; assumption|]. constructor. exact Hxy.
    + assert (Hyx : by_name y x).
      { destruct (String.leb_total (fst x) (fst y)); [congruence|assumption]. }
      constructor; [exact IH|].
      destruct rest as [|z rest]; simpl.
      * constructor. exact Hyx.
      * destruct (String.leb (fst x) (fst z)); constructor;
          [exact Hyx|inversion Hhd; assumption].
Qed.

(** X10. Sorting the extracted images keeps every image, once each, and
    puts the names in ascending order of their characters. *)
Theorem sort_by_name_sorts (images : list image) :
  sort_by_name images ≡ₚ images
  /\ StronglySorted by_name (sort_by_name images).
Proof.
  split.
  - induction images as [|x images IH]; simpl; [reflexivity|].
    rewrite insert_by_name_permutation, IH. reflexivity.
  - apply Sorted_StronglySorted; [exact by_name_transitive|].
    induction images as [|x images IH]; simpl; [constructor|].
    apply insert_by_name_sorted, IH.
Qed.

Lemma zip_read_member (entries : list image) (name : string)
    (data : list Byte.byte) :
  zip_read entries name = Some data -> (name, data) ∈ entries.
Proof.
  induction entries as [|[n d] rest IH]; simpl; [discriminate|].
  destruct (zip_read rest name) as [d'|].
  - intros [= <-]. right. apply IH. reflexivity.
  - destruct (String.eqb_spec n name) as [->|]; [|discriminate].
    intros [= <-]. left.
Qed.

Lemma collect_images_member (entries part : list image) (name : string)
    (data : list Byte.byte) :
  (name, data) ∈ flat_map
    (fun entry : image =>
       let filename := fst entry in
       let filename_lower := lower filename in
       if String.eqb filename_lower "comicinfo.xml"
          || ends_with ".xml" filename_lower
       then []
       else if in_strings (lower (suffix filename)) image_extensions
       then match zip_read entries filename with
            | Some file_data => [(filename, file_data)]
            | None => []
            end
       else [])
    part ->
  zip_read entries name = Some data
  /\ in_strings (lower (suffix name)) image_extensions = true
  /\ ends_with ".xml" (lower name) = false
  /\ lower name <> "comicinfo.xml"%string.
Proof.
  induction part as [|[n d] rest IH]; cbn [flat_map].
  - intros Hin. apply elem_of_nil in Hin. contradiction.
  - intros Hin. apply elem_of_app in Hin as [Hin|Hin]; [|exact (IH Hin)].
    cbn [fst] in Hin.
    destruct (String.eqb_spec (lower n) "comicinfo.xml") as [|Hname];
      [apply elem_of_nil in Hin; contradiction|].
    destruct (ends_with ".xml" (lower n)) eqn:Hxml;
      [apply elem_of_nil in Hin; contradiction|]. cbn [orb] in Hin.
    destruct (in_strings (lower (suffix n)) image_extensions) eqn:Hext;
      [|apply elem_of_nil in Hin; contradiction].
    destruct (zip_read entries n) as [file_data|] eqn:Hread;
      [|apply elem_of_nil in Hin; contradiction].
    apply list_elem_of_singleton in Hin. injection Hin as -> ->. auto.
Qed.

(** X11. A successful extraction leaves the folder as it was, and every
    image it returns is an entry of that archive with an image extension
    (compared in lower case) that is no XML file, carrying the data the
    archive gives for its name, in name order. *)
Theorem extraction_reads_images_only (cbz_name : string) (w w' : world)
    (images : list image) :
  extract_cbz_to_memory cbz_name w = (w', Ok images) ->
  fs w' = fs w
  /\ StronglySorted by_name images
  /\ exists entries : list image,
       fs w !! cbz_name = Some (Archive entries)
       /\ forall name data, (name, data) ∈ images ->
            (name, data) ∈ entries
            /\ zip_read entries name = Some data
            /\ in_strings (lower (suffix name)) image_extensions = true
            /\ ends_with ".xml" (lower name) = false
            /\ lower name <> "comicinfo.xml"%string.
Proof.
  unfold extract_cbz_to_memory.
  destruct (fs w !! cbz_name) as [[entries|]|] eqn:Hfile; try discriminate.
  intros [= <- <-]. split; [reflexivity|].
  destruct (sort_by_name_sorts (collect_images entries)) as (Hperm & Hsorted).
  split; [exact Hsorted|]. exists entries. split; [reflexivity|].
  intros name data Hin. rewrite Hperm in Hin.
  destruct (collect_images_member entries entries name data Hin)
    as (Hread & Hext & Hxml & Hname).
  split; [apply zip_read_member, Hread|]. auto.
Qed.

Lemma renumber_lookup_inv (images : list image) (first : Z) (i : nat)
    (entry : image) :
  renumber first images !! i = Some entry ->
  exists original_name data,
    images !! i = Some (original_name, data)
    /\ entry = (page_name (first + Z.of_nat i) original_name, data).
Proof.
  intros Hentry.
  assert (Hlt : (i < length images)%nat).
  { rewrite <- (renumber_length first). eapply lookup_lt_Some, Hentry. }
  destruct (lookup_lt_is_Some_2 images i Hlt) as [[original_name data] Himage].
  exists original_name, data. split; [exact Himage|].
  rewrite (renumber_lookup images first i original_name data Himage) in Hentry.
  congruence.
Qed.

Lemma suffix_has_no_leading_digit (name : string) :
  dotted_suffixes -> leading_digits (suffix name) = EmptyString.
Proof.
  intros Hdot. destruct (Hdot name) as [->|[rest ->]]; reflexivity.
Qed.

Lemma page_name_number (a b : Z) (name_a name_b : string) :
  dotted_suffixes -> 0 <= a -> 0 <= b ->
  page_name a name_a = page_name b name_b -> a = b.
Proof.
  intros Hdot Ha Hb Hsame. unfold page_name in Hsame.
  apply append_cancel in Hsame.
  destruct (format_03d_spec a Ha) as (Hda & _ & Hva & _).
  destruct (format_03d_spec b Hb) as (Hdb & _ & Hvb & _).
  assert (Hfmt : format_03d a = format_03d b).
  { rewrite <- (leading_digits_app (format_03d a) (suffix name_a) Hda
                  (suffix_has_no_leading_digit name_a Hdot)).
    rewrite <- (leading_digits_app (format_03d b) (suffix name_b) Hdb
                  (suffix_has_no_leading_digit name_b Hdot)).
    rewrite Hsame. reflexivity. }
  rewrite Hfmt, Hvb in Hva. congruence.
Qed.

(** X12. When suffixes are empty or start with a dot, the entries of a
    written archive all have different names: no page replaces or
    duplicates another, whatever the original names and the page count. *)
Theorem written_pages_have_distinct_names (output : string)
    (image_data_list : list image) (w : world) (entries : list image) :
  dotted_suffixes ->
  fs (fst (create_cbz_from_memory NoFault output image_data_list w)) !! output
  = Some (Archive entries) ->
  NoDup (fst <$> entries).
Proof.
  intros Hdot. rewrite create_without_fault. cbn [fst fs].
  rewrite lookup_insert_eq. intros [= <-].
  apply NoDup_alt. intros i j name Hi Hj.
  rewrite list_lookup_fmap in Hi, Hj.
  apply fmap_Some in Hi as (ei & Hei & Hi).
  apply fmap_Some in Hj as (ej & Hej & Hj).
  destruct (renumber_lookup_inv _ _ _ _ Hei) as (ni & di & _ & ->).
  destruct (renumber_lookup_inv _ _ _ _ Hej) as (nj & dj & _ & ->).
  cbn [fst] in Hi, Hj.
  assert (Hsame : 1 + Z.of_nat i = 1 + Z.of_nat j).
  { apply (page_name_number _ _ ni nj Hdot); [lia|lia|congruence]. }
  lia.
Qed.

End TranscoderMore.

Lemma posix_suffixes_are_dotted : dotted_suffixes.
Proof.
  intros name. unfold suffix, posix_platform, Posix.posix_suffix.
  destruct (Posix.from_last_dot (Posix.final_component name)) as [tail|] eqn:Htail;
    [|left; reflexivity].
  destruct (_ || _); [left; reflexivity|]. right.
  revert tail Htail. generalize (Posix.final_component name) as s.
  induction s as [|c s IH]; intros tail; simpl; [discriminate|].
  destruct (Posix.from_last_dot s) as [t|].
  - intros [= <-]. apply IH. reflexivity.
  - destruct (Ascii.eqb_spec c "."); [|discriminate].
    intros [= <-]. subst c. eauto.
Qed.

Lemma written_pages_have_distinct_names_witness :
  (dotted_suffixes
   /\ fs (fst (create_cbz_from_memory NoFault "A V001.cbz"
                 [("x/a.png"%string, Example.data Byte.x01);
                  ("y/a.png"%string, Example.data Byte.x02)]
                 {| fs := ∅; log := [] |})) !! "A V001.cbz"%string
      = Some (Archive [("page_001.png"%string, Example.data Byte.x01);
                       ("page_002.png"%string, Example.data Byte.x02)]))
  /\ NoDup ["page_001.png"; "page_002.png"]%string.
Proof.
  assert (Hwritten :
    fs (fst (create_cbz_from_memory NoFault "A V001.cbz"
               [("x/a.png"%string, Example.data Byte.x01);
                ("y/a.png"%string, Example.data Byte.x02)]
               {| fs := ∅; log := [] |})) !! "A V001.cbz"%string
    = Some (Archive [("page_001.png"%string, Example.data Byte.x01);
                     ("page_002.png"%string, Example.data Byte.x02)]))
    by (vm_compute; reflexivity).
  split; [split; [exact posix_suffixes_are_dotted|exact Hwritten]|].
  exact (written_pages_have_distinct_names "A V001.cbz" _ _ _
           posix_suffixes_are_dotted Hwritten).
Defined.

Lemma extraction_reads_images_only_witness :
  extract_cbz_to_memory "A 001.cbz" Example.folder
  = ({| fs := fs Example.folder;
        log := [InfoExtracted "A 001.cbz" 2] |},
     Ok [("a.JPG"%string, Example.data Byte.x04);
         ("b.jpg"%string, Example.data Byte.x03)])
  /\ StronglySorted by_name
       [("a.JPG"%string, Example.data Byte.x04);
        ("b.jpg"%string, Example.data Byte.x03)].
Proof.
  assert (Hrun :
    extract_cbz_to_memory "A 001.cbz" Example.folder
    = ({| fs := fs Example.folder;
          log := [InfoExtracted "A 001.cbz" 2] |},
       Ok [("a.JPG"%string, Example.data Byte.x04);
           ("b.jpg"%string, Example.data Byte.x03)]))
    by (vm_compute; reflexivity).
  split; [exact Hrun|].
  exact (proj1 (proj2 (extraction_reads_images_only _ _ _ _ Hrun))).
Defined.

(** ** Classification and the Specials folder *)

Section SortingFiles.

Lemma classify_files_shape (avoid_volumes : bool) (cbz_files : list string) :
  forall regular_files special_files volume_files,
    classify_files avoid_volumes cbz_files
    = (regular_files, special_files, volume_files) ->
    regular_files ++ special_files ++ volume_files ≡ₚ cbz_files
    /\ regular_files `sublist_of` cbz_files
    /\ special_files `sublist_of` cbz_files
    /\ volume_files `sublist_of` cbz_files
    /\ (avoid_volumes = false -> volume_files = []).
Proof.
  induction cbz_files as [|cbz rest IH]; intros regular special volume; simpl.
  - intros [= <- <- <-]. split_and!; try reflexivity; auto.
  - destruct (classify_files avoid_volumes rest) as [[reg spe] vol].
    destruct (IH reg spe vol eq_refl) as (Hperm & Hreg & Hspe & Hvol & Hoff).
    destruct (is_special_file cbz);
      [|destruct avoid_volumes; simpl; [destruct (is_volume_file cbz)|]];
      intros [= <- <- <-]; split_and!;
      try (apply sublist_skip; assumption);
      try (apply sublist_cons; assumption);
      try assumption; try discriminate.
    + rewrite <- Hperm. symmetry. apply Permutation_middle.
    + rewrite <- Hperm, !app_assoc. symmetry. apply Permutation_middle.
    + simpl. rewrite Hperm. reflexivity.
    + simpl. rewrite Hperm. reflexivity.
Qed.

(** X13. Classification loses and duplicates nothing: the three lists
    together are a rearrangement of the listing, each keeps the listing's
    order, and without skip-existing-volume-files no file is set aside as
    a volume. *)
Theorem classification_is_a_partition (avoid_volumes : bool)
    (cbz_files : list string) :
  let '(regular_files, special_files, volume_files) :=
    classify_files avoid_volumes cbz_files in
  regular_files ++ special_files ++ volume_files ≡ₚ cbz_files
  /\ regular_files `sublist_of` cbz_files
  /\ special_files `sublist_of` cbz_files
  /\ volume_files `sublist_of` cbz_files
  /\ (avoid_volumes = false -> volume_files = []).
Proof.
  destruct (classify_files avoid_volumes cbz_files) as [[reg spe] vol] eqn:Hc.
  exact (classify_files_shape avoid_volumes cbz_files reg spe vol Hc).
Qed.

Lemma specials_path_not_plain (name other : string) :
  plain_name name -> name <> specials_path other.
Proof.
  unfold plain_name, specials_path. intros Hplain ->.
  rewrite all_chars_app in Hplain. vm_compute in Hplain. discriminate.
Qed.

Lemma specials_path_inj (a b : string) :
  specials_path a = specials_path b -> a = b.
Proof. unfold specials_path. apply append_cancel. Qed.

(** What [move_specials] leaves alone. *)
Lemma move_specials_frame (F : faults) (special_files : list string) :
  forall (w : world) (f : string),
    f ∉ special_files ->
    (forall s, s ∈ special_files -> f <> specials_path s) ->
    fs (move_specials F special_files w) !! f = fs w !! f.
Proof.
  induction special_files as [|special rest IH]; intros w f Hout Hdest;
    [reflexivity|].
  apply not_elem_of_cons in Hout as [Hne Hout].
  cbn [move_specials]. rewrite IH; [|exact Hout|intros s Hs; apply Hdest; right; exact Hs].
  assert (Hd : f <> specials_path special) by (apply Hdest; left).
  destruct (fs w !! special); [|reflexivity].
  destruct (move_fails F special); [reflexivity|].
  cbn [say set_fs fs]. rewrite lookup_insert_ne by congruence.
  apply lookup_delete_ne. congruence.
Qed.

(** X14. Moving the specials: when the listed names are distinct and
    plain and no move fails, every special file that was there is gone
    from the folder and sits, content unchanged, under Specials; files
    that are neither a special nor a destination are untouched. *)
Theorem specials_are_relocated (F : faults) (special_files : list string)
    (w : world) :
  NoDup special_files ->
  Forall plain_name special_files ->
  (forall s, s ∈ special_files -> move_fails F s = false) ->
  (forall s, s ∈ special_files ->
     fs (move_specials F special_files w) !! s = None
     /\ forall c, fs w !! s = Some c ->
          fs (move_specials F special_files w) !! specials_path s = Some c)
  /\ (forall f, f ∉ special_files ->
        (forall s, s ∈ special_files -> f <> specials_path s) ->
        fs (move_specials F special_files w) !! f = fs w !! f).
Proof.
  intros Hnodup Hplain Hok. split; [|apply move_specials_frame].
  revert w. induction Hnodup as [|special rest Hfresh Hnodup IH]; intros w s Hs.
  { apply elem_of_nil in Hs. contradiction. }
  apply Forall_cons in Hplain as [Hp Hplain].
  cbn [move_specials].
  set (w1 := match fs w !! special with
             | Some c =>
                 if move_fails F special then say (ErrorMove special) w
                 else say (InfoMovedToSpecials special)
                        (set_fs (<[specials_path special := c]>
                                   (delete special (fs w))) w)
             | None => say (ErrorMove special) w
             end).
  assert (Hfirst : fs w1 !! special = None
                   /\ (forall c, fs w !! special = Some c ->
                         fs w1 !! specials_path special = Some c)
                   /\ (forall f, f <> special -> f <> specials_path special ->
                         fs w1 !! f = fs w !! f)).
  { unfold w1. rewrite (Hok special ltac:(left)).
    destruct (fs w !! special) as [c|] eqn:Hc; cbn [say set_fs fs].
    - split; [|split].
      + rewrite lookup_insert_ne
          by (intros Heq; exact (specials_path_not_plain _ _ Hp (eq_sym Heq))).
        apply lookup_delete_eq.
      + intros c' [= <-]. apply lookup_insert_eq.
      + intros f Hf Hd. rewrite lookup_insert_ne by congruence.
        apply lookup_delete_ne. congruence.
    - split; [exact Hc|]. split; [discriminate|reflexivity]. }
  destruct Hfirst as (Hgone & Hmoved & Hother).
  apply elem_of_cons in Hs as [->|Hs].
  - assert (Hkeep : forall f, f ∉ rest ->
              (forall t, t ∈ rest -> f <> specials_path t) ->
              fs (move_specials F rest w1) !! f = fs w1 !! f)
      by (intros f; apply move_specials_frame).
    split.
    + rewrite Hkeep; [exact Hgone|exact Hfresh|].
      intros t _. apply specials_path_not_plain, Hp.
    + intros c Hc. rewrite Hkeep; [apply Hmoved, Hc| |].
      * intros Hin. rewrite Forall_forall in Hplain.
        exact (specials_path_not_plain _ special (Hplain _ Hin) eq_refl).
      * intros t Ht Heq. apply specials_path_inj in Heq. subst t. contradiction.
  - destruct (IH Hplain (fun t Ht => Hok t ltac:(right; exact Ht)) w1 s Hs)
      as (Hnone & Hcopy).
    split; [exact Hnone|]. intros c Hc. apply Hcopy.
    rewrite Hother; [exact Hc|intros ->; contradiction|].
    rewrite Forall_forall in Hplain. apply specials_path_not_plain, Hplain, Hs.
Qed.

End SortingFiles.

Lemma specials_are_relocated_witness :
  (NoDup ["A SP01.cbz"%string]
   /\ Forall plain_name ["A SP01.cbz"%string]
   /\ (forall s, s ∈ ["A SP01.cbz"%string] ->
         move_fails Example.no_faults s = false))
  /\ fs (move_specials Example.no_faults ["A SP01.cbz"%string] Example.folder)
       !! "A SP01.cbz"%string = None
  /\ fs (move_specials Example.no_faults ["A SP01.cbz"%string] Example.folder)
       !! "Specials/A SP01.cbz"%string
     = Some (Archive [("s.png"%string, Example.data Byte.x01)]).
Proof.
  assert (Hnodup : NoDup ["A SP01.cbz"%string])
    by (apply NoDup_singleton).
  assert (Hplain : Forall plain_name ["A SP01.cbz"%string])
    by (repeat constructor).
  assert (Hok : forall s, s ∈ ["A SP01.cbz"%string] ->
                  move_fails Example.no_faults s = false)
    by (intros s _; reflexivity).
  split; [split; [exact Hnodup|split; [exact Hplain|exact Hok]]|].
  destruct (proj1 (specials_are_relocated Example.no_faults
                     ["A SP01.cbz"%string] Example.folder Hnodup Hplain Hok)
              "A SP01.cbz"%string ltac:(left)) as (Hgone & Hcopy).
  split; [exact Hgone|]. apply Hcopy. vm_compute. reflexivity.
Defined.

(** ** The batch loop *)

Section BatchLoop.
Context `{Platform}.

Lemma create_fs (fault : write_fault) (output : string) (images : list image)
    (w : world) :
  fs (fst (create_cbz_from_memory fault output images w)) = fs w
  \/ exists written,
       fs (fst (create_cbz_from_memory fault output images w))
       = <[output := written]> (fs w).
Proof.
  unfold create_cbz_from_memory. destruct fault as [| |kept].
  - right. eexists. reflexivity.
  - left. reflexivity.
  - right. eexists. reflexivity.
Qed.

Lemma create_outcome (fault : write_fault) (output : string)
    (images : list image) (w : world) :
  fault = NoFault ->
  snd (create_cbz_from_memory fault output images w) = Ok tt.
Proof. intros ->. rewrite create_without_fault. reflexivity. Qed.

(** What one batch leaves alone. *)
Lemma process_batch_frame (F : faults) (folder_name : string)
    (delete_originals : bool) (regular_files : list string)
    (batch_index : nat) (batch_size : Z) (st : cursor) (f : string) :
  f ∉ slice regular_files (file_index st) (file_index st + batch_size) ->
  f <> output_name folder_name (volume_counter st) ->
  fs (cur_world (process_batch F folder_name delete_originals regular_files
                   batch_index batch_size st)) !! f
  = fs (cur_world st) !! f.
Proof.
  intros Hbatch Hout. rewrite process_batch_unfold.
  destruct (readable_images _ _) as [|first more]; [reflexivity|].
  match goal with
  | |- context [create_cbz_from_memory ?fault ?o ?imgs ?w0] =>
      pose proof (create_fs fault o imgs w0) as Hfs;
      destruct (create_cbz_from_memory fault o imgs w0) as [w2 [[]|e|]]
  end; cbn [fst cur_world say fs] in *.
  - assert (Hw2 : fs w2 !! f = fs (cur_world st) !! f).
    { destruct Hfs as [->|[written ->]]; [reflexivity|].
      apply lookup_insert_ne. congruence. }
    destruct delete_originals; [|exact Hw2].
    destruct (delete_sources_spec F
                (slice regular_files (file_index st) (file_index st + batch_size))
                w2) as (_ & Hother & _).
    rewrite (Hother f Hbatch). exact Hw2.
  - destruct Hfs as [->|[written ->]]; [reflexivity|].
    apply lookup_insert_ne. congruence.
  - destruct Hfs as [->|[written ->]]; [reflexivity|].
    apply lookup_insert_ne. congruence.
Qed.

(** How one batch moves the two counters. *)
Lemma process_batch_counters (F : faults) (folder_name : string)
    (delete_originals : bool) (regular_files : list string)
    (batch_index : nat) (batch_size : Z) (st : cursor) :
  let st' := process_batch F folder_name delete_originals regular_files
               batch_index batch_size st in
  file_index st' = file_index st + batch_size
  /\ volume_counter st <= volume_counter st' <= volume_counter st + 1
  /\ (write_fault_of F batch_index = NoFault ->
      volume_counter st' = volume_counter st + 1).
Proof.
  cbv zeta. rewrite process_batch_unfold.
  destruct (readable_images _ _) as [|first more];
    [cbn [file_index volume_counter]; split_and!; [reflexivity|lia|lia|reflexivity]|].
  match goal with
  | |- context [create_cbz_from_memory ?fault ?o ?imgs ?w0] =>
      pose proof (create_outcome fault o imgs w0) as Hok;
      destruct (create_cbz_from_memory fault o imgs w0) as [w2 [[]|e|]]
  end; cbn [snd file_index volume_counter] in *;
    split_and!; try reflexivity; try lia;
    intros Hfault; specialize (Hok Hfault); discriminate.
Qed.

(** The volume number stays exactly when the batch has images and their
    write fails. *)
Lemma process_batch_volume (F : faults) (folder_name : string)
    (delete_originals : bool) (regular_files : list string)
    (batch_index : nat) (batch_size : Z) (st : cursor) :
  volume_counter (process_batch F folder_name delete_originals regular_files
                    batch_index batch_size st)
  = volume_counter st
    + (if write_fails F regular_files batch_index batch_size st then 0 else 1).
Proof.
  rewrite process_batch_unfold. unfold write_fails.
  destruct (readable_images _ _) as [|first more]; [reflexivity|].
  destruct (write_fault_of F batch_index) as [| |kept];
    cbn [create_cbz_from_memory volume_counter]; lia.
Qed.

(** X15. Over the whole batch loop the file cursor advances by the sum of
    the planned sizes, and the volume number advances by one for every
    batch, those without images included, except the batches that had
    images and whose write failed: it ends at the start plus the number of
    batches minus the number of failed writes.  In particular it advances
    by the number of batches when no write fails, and a single batch
    whose write fails leaves it where it was. *)
Theorem batch_loop_counters (F : faults) (folder_name : string)
    (delete_originals : bool) (regular_files : list string)
    (actual_batches : list Z) (batch_index : nat) (st : cursor) :
  file_index (process_batches F folder_name delete_originals regular_files
                batch_index actual_batches st)
  = file_index st + sum_sizes actual_batches
  /\ volume_counter (process_batches F folder_name delete_originals
                       regular_files batch_index actual_batches st)
     = volume_counter st + Z.of_nat (length actual_batches)
       - failed_writes F folder_name delete_originals regular_files
           batch_index actual_batches st
  /\ 0 <= failed_writes F folder_name delete_originals regular_files
            batch_index actual_batches st
       <= Z.of_nat (length actual_batches)
  /\ ((forall i, write_fault_of F i = NoFault) ->
      failed_writes F folder_name delete_originals regular_files
        batch_index actual_batches st = 0)
  /\ (forall batch_size,
        volume_counter (process_batches F folder_name delete_originals
                          regular_files batch_index [batch_size] st)
        = match readable_images (fs (cur_world st))
                  (slice regular_files (file_index st)
                     (file_index st + batch_size)),
                write_fault_of F batch_index with
          | _ :: _, OpenFails | _ :: _, WriteFails _ => volume_counter st
          | _, _ => volume_counter st + 1
          end).
Proof.
  split; [|split; [|split; [|split]]].
  - revert batch_index st.
    induction actual_batches as [|batch_size rest IH]; intros batch_index st.
    + cbn [process_batches]. rewrite sum_sizes_nil. lia.
    + cbn [process_batches]. rewrite IH, sum_sizes_cons.
      destruct (process_batch_counters F folder_name delete_originals
                  regular_files batch_index batch_size st) as (-> & _). lia.
  - revert batch_index st.
    induction actual_batches as [|batch_size rest IH]; intros batch_index st.
    + cbn [process_batches failed_writes length]. lia.
    + cbn [process_batches failed_writes]. rewrite IH, process_batch_volume.
      simpl length. destruct (write_fails _ _ _ _ _); lia.
  - revert batch_index st.
    induction actual_batches as [|batch_size rest IH]; intros batch_index st.
    + cbn [failed_writes length]. lia.
    + cbn [failed_writes]. simpl length.
      specialize (IH (S batch_index)
                    (process_batch F folder_name delete_originals regular_files
                       batch_index batch_size st)).
      destruct (write_fails _ _ _ _ _); lia.
  - intros Hnone. revert batch_index st.
    induction actual_batches as [|batch_size rest IH]; intros batch_index st.
    + reflexivity.
    + cbn [failed_writes]. rewrite (IH (S batch_index)).
      unfold write_fails. rewrite (Hnone batch_index).
      destruct (readable_images _ _); reflexivity.
  - intros batch_size. cbn [process_batches]. rewrite process_batch_volume.
    unfold write_fails. destruct (readable_images _ _) as [|first more]; [lia|].
    destruct (write_fault_of F batch_index); lia.
Qed.

(** X16. With delete-sources-after-merge off the batch loop removes no
    file, and the only files whose content it can change are those named
    like an output volume of the folder. *)
Theorem without_deletion_nothing_disappears (F : faults) (folder_name : string)
    (regular_files : list string) (actual_batches : list Z)
    (batch_index : nat) (st : cursor) (f : string) :
  (is_Some (fs (cur_world st) !! f) ->
   is_Some (fs (cur_world (process_batches F folder_name false regular_files
                             batch_index actual_batches st)) !! f))
  /\ ((forall vc, f <> output_name folder_name vc) ->
      fs (cur_world (process_batches F folder_name false regular_files
                       batch_index actual_batches st)) !! f
      = fs (cur_world st) !! f).
Proof.
  revert batch_index st.
  induction actual_batches as [|batch_size rest IH]; intros batch_index st;
    [split; auto|].
  cbn [process_batches].
  destruct (IH (S batch_index)
              (process_batch F folder_name false regular_files
                 batch_index batch_size st)) as (Hstays & Hsame).
  assert (Hstep :
    fs (cur_world (process_batch F folder_name false regular_files
                     batch_index batch_size st))
    = fs (cur_world st)
    \/ exists written,
         fs (cur_world (process_batch F folder_name false regular_files
                          batch_index batch_size st))
         = <[output_name folder_name (volume_counter st) := written]>
             (fs (cur_world st))).
  { rewrite process_batch_unfold.
    destruct (readable_images _ _) as [|first more]; [left; reflexivity|].
    match goal with
    | |- context [create_cbz_from_memory ?fault ?o ?imgs ?w0] =>
        pose proof (create_fs fault o imgs w0) as Hfs;
        destruct (create_cbz_from_memory fault o imgs w0) as [w2 [[]|e|]]
    end; cbn [fst cur_world say fs] in *; exact Hfs. }
  split.
  - intros Hsome. apply Hstays.
    destruct Hstep as [->|[written ->]]; [exact Hsome|].
    destruct (decide (output_name folder_name (volume_counter st) = f)) as [->|Hne].
    + rewrite lookup_insert_eq. eauto.
    + rewrite lookup_insert_ne by exact Hne. exact Hsome.
  - intros Hname. rewrite (Hsame Hname).
    destruct Hstep as [->|[written ->]]; [reflexivity|].
    apply lookup_insert_ne. apply not_eq_sym, Hname.
Qed.

(** X17. A batch that yields no image (every source unreadable or
    without pages) writes nothing and deletes nothing, whatever the delete
    flag; it is logged and it still takes a volume number and its files. *)
Theorem batch_without_images_changes_nothing (F : faults) (folder_name : string)
    (delete_originals : bool) (regular_files : list string)
    (batch_index : nat) (batch_size : Z) (st : cursor) :
  let batch := slice regular_files (file_index st) (file_index st + batch_size) in
  let st' := process_batch F folder_name delete_originals regular_files
               batch_index batch_size st in
  readable_images (fs (cur_world st)) batch = [] ->
  fs (cur_world st') = fs (cur_world st)
  /\ volume_counter st' = volume_counter st + 1
  /\ file_index st' = file_index st + batch_size
  /\ exists before : list event,
       log (cur_world st') = before ++ [ErrorNoImages (volume_counter st)].
Proof.
  intros batch st' Hnone. unfold st'. rewrite process_batch_unfold.
  fold batch. rewrite Hnone. cbn [cur_world say fs log volume_counter file_index].
  split_and!; try reflexivity. eexists. reflexivity.
Qed.

(** X18. When a source of the batch is named like the volume being
    written (possible when volume-tagged files are not skipped), the merged
    volume replaces that source and is then deleted with the sources:
    after the batch the folder holds neither. *)
Theorem merged_volume_deleted_with_its_namesake (F : faults)
    (folder_name : string) (regular_files : list string)
    (batch_index : nat) (batch_size : Z) (st : cursor) :
  let batch := slice regular_files (file_index st) (file_index st + batch_size) in
  let out := output_name folder_name (volume_counter st) in
  let st' := process_batch F folder_name true regular_files
               batch_index batch_size st in
  out ∈ batch ->
  readable_images (fs (cur_world st)) batch <> [] ->
  write_fault_of F batch_index = NoFault ->
  unlink_fails F out = false ->
  fs (cur_world st') !! out = None
  /\ exists before after : list event,
       log (cur_world st')
       = before ++ [InfoCreated out
                      (length (readable_images (fs (cur_world st)) batch))]
         ++ after
       /\ InfoDeleted out ∈ after.
Proof.
  intros batch out st' Hin Himages Hfault Hunlink.
  unfold st'. rewrite process_batch_unfold. fold batch out.
  destruct (readable_images (fs (cur_world st)) batch) as [|first more] eqn:Hi;
    [congruence|]. rewrite <- Hi.
  rewrite Hfault, create_without_fault. cbn [cur_world].
  match goal with
  | |- context [delete_sources F batch ?w] =>
      set (w2 := w); destruct (delete_sources_spec F batch w2)
        as ((deleted & Hlog & Hdel) & _ & _ & Hgone)
  end.
  split; [apply Hgone; assumption|].
  eexists _, deleted. split.
  - rewrite Hlog. unfold w2. cbn [log]. rewrite <- app_assoc. reflexivity.
  - apply Hdel; [assumption| |assumption]. unfold w2. cbn [fs].
    rewrite lookup_insert_eq. eauto.
Qed.

Lemma slice_subseteq {A} (l : list A) (i j : Z) (x : A) :
  x ∈ slice l i j -> x ∈ l.
Proof.
  unfold slice. intros Hx. apply (subseteq_drop (Z.to_nat (slice_bound (Z.of_nat (length l)) i))).
  eapply subseteq_take, Hx.
Qed.

Lemma slice_within_prefix {A} (l : list A) (i b : Z) (x : A) :
  0 <= i -> 0 <= b -> x ∈ slice l i (i + b) ->
  x ∈ take (Z.to_nat (i + b)) l.
Proof.
  intros Hi Hb. unfold slice, slice_bound.
  destruct (Z.ltb_spec i 0); [lia|]. destruct (Z.ltb_spec (i + b) 0); [lia|].
  set (len := Z.of_nat (length l)).
  intros Hx.
  assert (Hin : x ∈ take (Z.to_nat (Z.min i len)
                          + Z.to_nat (Z.min (i + b) len - Z.min i len)) l).
  { rewrite <- take_take_drop. apply elem_of_app. right. exact Hx. }
  apply elem_of_take in Hin as (k & Hk & Hlt).
  apply elem_of_take. exists k. split; [exact Hk|]. lia.
Qed.

Lemma output_name_is_volume (folder_name : string) (n : Z) :
  0 <= n -> is_volume_file (output_name folder_name n) = true.
Proof.
  intros Hn. destruct (format_03d_spec n Hn) as (Hd & Hlen & _).
  apply is_volume_file_iff. unfold output_name.
  destruct (format_03d n) as [|d rest] eqn:Hf; [simpl in Hlen; lia|].
  exists (folder_name +:+ " "), "V"%char, d, (rest +:+ ".cbz").
  split; [|split; [reflexivity|simpl in Hd; apply andb_true_iff in Hd; tauto]].
  rewrite string_app_assoc. reflexivity.
Qed.

(** X19. Files the plan does not reach are never touched: with sizes
    that are not negative, a file that is not among the first
    [file_index + sum(plan)] regular files and is not volume-tagged has
    the same content after the batch loop as before, whatever fails. *)
Theorem files_beyond_the_plan_are_untouched (F : faults) (folder_name : string)
    (delete_originals : bool) (regular_files : list string)
    (actual_batches : list Z) (batch_index : nat) (st : cursor) (f : string) :
  Forall (fun size => 0 <= size) actual_batches ->
  0 <= file_index st -> 0 <= volume_counter st ->
  f ∉ take (Z.to_nat (file_index st + sum_sizes actual_batches)) regular_files ->
  is_volume_file f = false ->
  fs (cur_world (process_batches F folder_name delete_originals regular_files
                   batch_index actual_batches st)) !! f
  = fs (cur_world st) !! f.
Proof.
  intros Hsizes. revert batch_index st.
  induction Hsizes as [|batch_size rest Hsize Hsizes IH];
    intros batch_index st Hfile Hvol Hbeyond Hplain; [reflexivity|].
  cbn [process_batches]. rewrite sum_sizes_cons in Hbeyond.
  assert (Hrest : 0 <= sum_sizes rest).
  { clear -Hsizes. induction Hsizes as [|x l Hx _ IHl];
      [rewrite sum_sizes_nil; lia|rewrite sum_sizes_cons; lia]. }
  destruct (process_batch_counters F folder_name delete_originals regular_files
              batch_index batch_size st) as (Hfile' & Hvol' & _).
  rewrite IH; try lia; try assumption.
  - apply process_batch_frame.
    + intros Hin. apply Hbeyond.
      apply (slice_within_prefix _ _ _ _ Hfile Hsize) in Hin.
      apply elem_of_take in Hin as (k & Hk & Hlt).
      apply elem_of_take. exists k. split; [exact Hk|]. lia.
    + intros ->. rewrite (output_name_is_volume folder_name _ Hvol) in Hplain.
      discriminate.
  - rewrite Hfile'. replace (file_index st + batch_size + sum_sizes rest)
      with (file_index st + (batch_size + sum_sizes rest)) by lia. exact Hbeyond.
Qed.

End BatchLoop.

Lemma batch_without_images_changes_nothing_witness :
  readable_images (fs Example.folder) (slice Unreadable.regular_files 0 (0 + 1)) = []
  /\ fs (cur_world (process_batch Example.no_faults "A" true
                      Unreadable.regular_files 0 1 Unreadable.start))
     = fs Example.folder
  /\ volume_counter (process_batch Example.no_faults "A" true
                       Unreadable.regular_files 0 1 Unreadable.start) = 3 + 1.
Proof.
  assert (Hnone : readable_images (fs Example.folder)
                    (slice Unreadable.regular_files 0 (0 + 1)) = [])
    by (vm_compute; reflexivity).
  split; [exact Hnone|].
  destruct (batch_without_images_changes_nothing Example.no_faults "A" true
              Unreadable.regular_files 0 1 Unreadable.start Hnone)
    as (Hfs & Hvol & _).
  split; [exact Hfs|exact Hvol].
Defined.

Lemma merged_volume_deleted_with_its_namesake_witness :
  ("B V001.cbz"%string ∈ slice Collision.regular_files 0 (0 + 1)
   /\ readable_images (fs Collision.folder)
        (slice Collision.regular_files 0 (0 + 1)) <> []
   /\ write_fault_of Example.no_faults 0 = NoFault
   /\ unlink_fails Example.no_faults "B V001.cbz" = false)
  /\ output_name "B" 1 = "B V001.cbz"%string
  /\ fs (cur_world (process_batch Example.no_faults "B" true
                      Collision.regular_files 0 1 Collision.start))
       !! "B V001.cbz"%string = None.
Proof.
  assert (Hin : "B V001.cbz"%string ∈ slice Collision.regular_files 0 (0 + 1)).
  { change ("B V001.cbz"%string ∈ ["B V001.cbz"%string]).
    apply elem_of_cons. left. reflexivity. }
  assert (Himages : readable_images (fs Collision.folder)
                      (slice Collision.regular_files 0 (0 + 1)) <> [])
    by (vm_compute; discriminate).
  split; [repeat split; assumption|]. split; [reflexivity|].
  exact (proj1 (merged_volume_deleted_with_its_namesake Example.no_faults "B"
                  Collision.regular_files 0 1 Collision.start
                  Hin Himages eq_refl eq_refl)).
Defined.

Lemma files_beyond_the_plan_are_untouched_witness :
  (Forall (fun size => 0 <= size) [1]
   /\ 0 <= 0 /\ 0 <= 3
   /\ ("A 002.cbz"%string
       ∉ take (Z.to_nat (0 + sum_sizes [1])) ExampleRun.regular_files)
   /\ is_volume_file "A 002.cbz" = false)
  /\ fs (cur_world (process_batches Example.no_faults "A" true
                      ExampleRun.regular_files 0 [1] ExampleRun.start))
       !! "A 002.cbz"%string
     = Some Unreadable.
Proof.
  assert (Hsizes : Forall (fun size => 0 <= size) [1]) by (repeat constructor; lia).
  assert (Hfile : 0 <= 0) by lia.
  assert (Hvol : 0 <= 3) by lia.
  assert (Hbeyond : "A 002.cbz"%string
                    ∉ take (Z.to_nat (0 + sum_sizes [1])) ExampleRun.regular_files).
  { change ("A 002.cbz"%string ∉ ["A 001.cbz"%string]).
    intros Hin. apply elem_of_cons in Hin as [Heq|Hin]; [discriminate|].
    apply elem_of_nil in Hin. exact Hin. }
  assert (Hplain : is_volume_file "A 002.cbz" = false) by (vm_compute; reflexivity).
  split; [split; [exact Hsizes|split; [exact Hfile|split; [exact Hvol|split;
            [exact Hbeyond|exact Hplain]]]]|].
  rewrite (files_beyond_the_plan_are_untouched Example.no_faults "A" true
             ExampleRun.regular_files [1] 0 ExampleRun.start "A 002.cbz"
             Hsizes Hfile Hvol Hbeyond Hplain).
  vm_compute. reflexivity.
Defined.

(** ** Existing volumes and a whole folder *)

Section WholeFolder.
Context `{Platform}.

Lemma say_all_fs (es : list event) (w : world) : fs (say_all es w) = fs w.
Proof. reflexivity. Qed.

(** The batch loop leaves alone a file that is no regular file and is
    not named like any volume from the current number on. *)
Lemma process_batches_frame_outside (F : faults) (folder_name : string)
    (delete_originals : bool) (regular_files : list string) (f : string)
    (lowest : Z) (actual_batches : list Z) :
  f ∉ regular_files ->
  (forall vc, lowest <= vc -> f <> output_name folder_name vc) ->
  forall (batch_index : nat) (st : cursor),
    lowest <= volume_counter st ->
    fs (cur_world (process_batches F folder_name delete_originals regular_files
                     batch_index actual_batches st)) !! f
    = fs (cur_world st) !! f.
Proof.
  intros Hout Hname.
  induction actual_batches as [|batch_size rest IH]; intros batch_index st Hlow;
    [reflexivity|].
  cbn [process_batches].
  destruct (process_batch_counters F folder_name delete_originals regular_files
              batch_index batch_size st) as (_ & Hvol & _).
  rewrite IH by lia. apply process_batch_frame.
  - intros Hin. apply Hout. eapply slice_subseteq, Hin.
  - apply Hname, Hlow.
Qed.

Lemma merge_batches_frame (fuel : nat) (F : faults) (folder_name : string)
    (batch_sizes : list Z) (is_repeating no_extra delete_originals : bool)
    (regular_files : list string) (first_volume : Z) (w : world) (f : string) :
  f ∉ regular_files ->
  (forall vc, first_volume <= vc -> f <> output_name folder_name vc) ->
  fs (fst (merge_batches fuel F folder_name batch_sizes is_repeating no_extra
             delete_originals regular_files first_volume w)) !! f
  = fs w !! f.
Proof.
  intros Hout Hname. unfold merge_batches.
  destruct (calculate_batches fuel (Z.of_nat (length regular_files)) batch_sizes
              is_repeating no_extra) as [planned [plan|e|]]; try reflexivity.
  match goal with
  | |- context [process_batches F folder_name delete_originals regular_files
                  0 plan ?st0] =>
      pose proof (process_batches_frame_outside F folder_name delete_originals
                    regular_files f first_volume plan Hout Hname 0%nat st0
                    ltac:(cbn [volume_counter]; lia)) as Hframe;
      destruct (file_index (process_batches F folder_name delete_originals
                              regular_files 0 plan st0)
                <? Z.of_nat (length regular_files))
  end; cbn [fst say fs]; exact Hframe.
Qed.

(** The name of volume [vc] carries the number [vc]. *)
Lemma output_name_carries_number (folder_name : string) (vc : Z) :
  0 <= vc -> is_volume_file folder_name = false ->
  (String.length (output_name folder_name vc) <= int_max_str_digits)%nat ->
  extract_volume_number (output_name folder_name vc) = Ok (Some vc).
Proof.
  intros Hvc Hfolder Hlen.
  destruct (format_03d_spec vc Hvc) as (Hd & _ & Hval & _).
  unfold extract_volume_number.
  rewrite (volume_found_in_output folder_name vc Hvc Hfolder).
  rewrite (py_int_of_digits _ vc Hd (format_03d_nonempty vc Hvc)); [reflexivity| |exact Hval].
  unfold output_name in Hlen. rewrite !string_length_app in Hlen. lia.
Qed.

(** X20. With skip-existing-volume-files on, in a folder whose name has
    no V followed by a digit, [process_directory] never changes an
    existing volume-tagged file: it is neither moved, merged, deleted nor
    overwritten by a new volume, whatever the sizes, the flags and the
    faults (listed names plain and within the limit of [int]). *)
Theorem existing_volumes_are_kept (fuel : nat) (F : faults)
    (folder_exists : bool) (cbz_files : list string)
    (folder_name batch_sizes_str : string) (no_extra delete_originals : bool)
    (w : world) (f : string) :
  is_volume_file folder_name = false ->
  Forall plain_name cbz_files ->
  Forall (fun name => (String.length name <= int_max_str_digits)%nat) cbz_files ->
  f ∈ cbz_files -> is_special_file f = false -> is_volume_file f = true ->
  fs (fst (process_directory fuel F folder_exists cbz_files folder_name
             batch_sizes_str no_extra true delete_originals w)) !! f
  = fs w !! f.
Proof.
  intros Hfolder Hplain Hshort Hin Hnotspecial Hvolume.
  unfold process_directory.
  destruct folder_exists; cbn [negb]; [|reflexivity].
  destruct (parse_batch_sizes batch_sizes_str) as [[batch_sizes is_repeating]|e|];
    try reflexivity.
  destruct cbz_files as [|first others];
    [apply elem_of_nil in Hin; contradiction|].
  cbv match. set (listing := first :: others) in *.
  destruct (classify_files true listing)
    as [[regular_files special_files] volume_files] eqn:Hclass.
  destruct (classify_files_members true listing _ _ _ Hclass)
    as (Hspe & Hvol & Hreg).
  destruct (match special_files with [] => false | _ :: _ => mkdir_fails F end);
    [reflexivity|].
  assert (Hmoved : forall w0,
            fs (move_specials F special_files w0) !! f = fs w0 !! f).
  { intros w0. apply move_specials_frame.
    - rewrite Hspe. intros [_ Hs]. congruence.
    - intros s _. apply specials_path_not_plain.
      rewrite Forall_forall in Hplain. apply Hplain, Hin. }
  set (w1 := move_specials F special_files
               (say (InfoProcessing folder_name batch_sizes_str no_extra true
                       delete_originals) w)).
  assert (Hw1 : fs w1 !! f = fs w !! f) by (unfold w1; rewrite Hmoved; reflexivity).
  set (w2 := match volume_files with
             | [] => w1
             | _ :: _ => say (InfoSkippingVolumes volume_files) w1
             end).
  assert (Hw2 : fs w2 !! f = fs w !! f)
    by (unfold w2; destruct volume_files; exact Hw1).
  assert (Hmember : f ∈ volume_files) by (apply Hvol; auto).
  assert (Hnum : forall g, g ∈ volume_files ->
                   exists n, extract_volume_number g = Ok (Some n) /\ 0 <= n).
  { intros g Hg. apply Hvol in Hg as (Hgin & _ & _ & Hgv).
    apply volume_file_has_number; [|exact Hgv].
    rewrite Forall_forall in Hshort. apply Hshort, Hgin. }
  destruct (highest_volume_spec volume_files
              (fun g Hg => match Hnum g Hg with
                           | ex_intro _ n (conj Hn _) => ex_intro _ n Hn
                           end) 0)
    as (highest & Hrun & Hge & Hall & _).
  assert (Hstart : exists found,
            starting_volume true volume_files = Ok (found, highest + 1)).
  { unfold starting_volume. destruct volume_files as [|v vs];
      [apply elem_of_nil in Hmember; contradiction|].
    rewrite Hrun. simpl. destruct (Z.ltb_spec 0 highest); eexists; try reflexivity.
    do 2 f_equal. lia. }
  destruct Hstart as (found & ->).
  destruct regular_files as [|r rs] eqn:Hregs; [exact Hw2|]. rewrite <- Hregs in *.
  rewrite merge_batches_frame; [exact Hw2| |].
  - rewrite Hreg. intros (_ & _ & [Hoff|Hno]); congruence.
  - intros vc Hvc Heq.
    destruct (Hnum f Hmember) as (n & Hn & Hn0).
    pose proof (Hall f n Hmember Hn) as Hle.
    assert (Hcarry : extract_volume_number f = Ok (Some vc)).
    { rewrite Heq. apply output_name_carries_number; [lia|exact Hfolder|].
      rewrite <- Heq. rewrite Forall_forall in Hshort. apply Hshort, Hin. }
    rewrite Hn in Hcarry. injection Hcarry as ->. lia.
Qed.

End WholeFolder.

Lemma existing_volumes_are_kept_witness :
  (is_volume_file "A" = false
   /\ Forall plain_name Example.listing
   /\ Forall (fun name => (String.length name <= int_max_str_digits)%nat)
        Example.listing
   /\ "A V002.cbz"%string ∈ Example.listing
   /\ is_special_file "A V002.cbz" = false
   /\ is_volume_file "A V002.cbz" = true)
  /\ fs (fst (process_directory 0 Example.no_faults true Example.listing
                "A" "1" false true true Example.folder)) !! "A V002.cbz"%string
     = Some (Archive [("v.png"%string, Example.data Byte.x02)]).
Proof.
  assert (Hfolder : is_volume_file "A" = false) by (vm_compute; reflexivity).
  assert (Hplain : Forall plain_name Example.listing)
    by (repeat constructor).
  assert (Hshort : Forall (fun name => (String.length name <= int_max_str_digits)%nat)
                     Example.listing)
    by (repeat constructor; apply Nat.leb_le; vm_compute; reflexivity).
  assert (Hin : "A V002.cbz"%string ∈ Example.listing).
  { unfold Example.listing. do 3 (apply elem_of_cons; right).
    apply elem_of_cons. left. reflexivity. }
  assert (Hns : is_special_file "A V002.cbz" = false) by (vm_compute; reflexivity).
  assert (Hv : is_volume_file "A V002.cbz" = true) by (vm_compute; reflexivity).
  split; [split; [exact Hfolder|split; [exact Hplain|split; [exact Hshort|split;
            [exact Hin|split; [exact Hns|exact Hv]]]]]|].
  rewrite (existing_volumes_are_kept 0 Example.no_faults true Example.listing
             "A" "1" false true Example.folder "A V002.cbz"
             Hfolder Hplain Hshort Hin Hns Hv).
  vm_compute. reflexivity.
Defined.

(** ** Configuration rows *)

Import Driver.

Section DriverFacts.
Context `{Platform}.
Variable W : Type.
Variable tell : driver_event -> W -> W.
Variable run_directory :
  string -> string -> bool -> bool -> bool -> W -> W * outcome unit.

Lemma parse_bool_blank (value : string) (default : bool) :
  strip value = EmptyString -> parse_bool value default = Ok default.
Proof. intros Hblank. unfold parse_bool. rewrite Hblank. reflexivity. Qed.

(** What [parse_bool] raises does not depend on the default. *)
Lemma parse_bool_raise (value : string) (default default' : bool) (e : exn) :
  parse_bool value default = Raise e -> parse_bool value default' = Raise e.
Proof.
  unfold parse_bool. destruct (strip value) as [|c rest]; [discriminate|].
  intros Hraise. exact Hraise.
Qed.

Lemma cell_flag_cases (row : list string) (i : nat) (default : bool) :
  (exists b, cell_flag row i default = Ok b)
  \/ cell_flag row i default = Raise ValueError.
Proof.
  unfold cell_flag. destruct (row !! i) as [value|]; [|left; eauto].
  unfold parse_bool. destruct (strip value) as [|c rest]; [left; eauto|].
  destruct (in_strings _ true_words); [left; eauto|].
  destruct (in_strings _ false_words); [left; eauto|right; reflexivity].
Qed.

Lemma cell_flag_blank (row : list string) (i : nat) (default : bool) :
  Forall (fun cell => strip cell = EmptyString) (drop 2 row) ->
  (2 <= i)%nat -> cell_flag row i default = Ok default.
Proof.
  intros Hblank Hi. unfold cell_flag.
  destruct (row !! i) as [value|] eqn:Hcell; [|reflexivity].
  apply parse_bool_blank.
  rewrite Forall_lookup in Hblank. apply (Hblank (i - 2)%nat).
  rewrite lookup_drop. replace (2 + (i - 2))%nat with i by lia. exact Hcell.
Qed.

(** One flag cell that is no boolean word makes the whole [try] fail. *)
Lemma row_flags_raise (row : list string) (i : nat) (value : string)
    (default : bool) :
  (2 <= i <= 5)%nat -> row !! i = Some value ->
  parse_bool value default = Raise ValueError ->
  row_flags row = Raise ValueError.
Proof.
  intros Hi Hcell Hraise.
  assert (Hbad : forall d, cell_flag row i d = Raise ValueError).
  { intros d. unfold cell_flag. rewrite Hcell.
    exact (parse_bool_raise value default d ValueError Hraise). }
  unfold row_flags.
  destruct (cell_flag_cases row 2 true) as [(b2 & H2)|H2]; rewrite H2;
    [|reflexivity].
  destruct (cell_flag_cases row 3 true) as [(b3 & H3)|H3]; rewrite H3;
    [|reflexivity].
  destruct (cell_flag_cases row 4 true) as [(b4 & H4)|H4]; rewrite H4;
    [|reflexivity].
  destruct (cell_flag_cases row 5 false) as [(b5 & H5)|H5]; rewrite H5;
    [|reflexivity].
  assert (Hcases : i = 2%nat \/ i = 3%nat \/ i = 4%nat \/ i = 5%nat) by lia.
  destruct Hcases as [-> | [-> | [-> | ->]]];
    match goal with
    | Hok : cell_flag row ?k _ = Ok _ |- _ =>
        rewrite (Hbad _) in Hok; discriminate Hok
    end.
Qed.

(** X21. A row whose flag cells (columns 2 and on) are all missing or
    blank is given the default flags, the same four values [main] falls
    back to after an invalid cell, and nothing is logged for it. *)
Theorem blank_flags_give_defaults (row_num : nat) (row : list string) (w : W) :
  Forall (fun cell => strip cell = EmptyString) (drop 2 row) ->
  flags_or_defaults W tell row_num row w = (w, default_flags).
Proof.
  intros Hblank. unfold flags_or_defaults, row_flags.
  rewrite !(cell_flag_blank row _ _ Hblank) by lia. reflexivity.
Qed.

(** X22. One flag cell that is no boolean word discards the other three
    as well: the row is logged as invalid and its folder is processed
    with the defaults (suppress remainder, skip volumes, delete the
    originals), also when the row sets ignore to true or delete to
    false. *)
Theorem invalid_flag_resets_the_row (row_num : nat) (name sizes : string)
    (cells : list string) (w : W) (i : nat) (value : string) (default : bool) :
  strip sizes <> EmptyString ->
  (2 <= i <= 5)%nat -> (name :: sizes :: cells) !! i = Some value ->
  parse_bool value default = Raise ValueError ->
  process_row W tell run_directory row_num (name :: sizes :: cells) w
  = run_directory (strip name) (strip sizes) true true true
      (tell (InvalidBoolean row_num) w).
Proof.
  intros Hsizes Hi Hcell Hraise. unfold process_row.
  cbn [lookup list_lookup fmap option_fmap option_map].
  destruct (strip sizes) as [|c rest] eqn:Hstripped; [contradiction|].
  unfold flags_or_defaults.
  rewrite (row_flags_raise _ i value default Hi Hcell Hraise).
  reflexivity.
Qed.

Lemma process_rows_app_ok (rows1 rows2 : list (list string)) :
  forall (row_num : nat) (w w1 : W),
    process_rows W tell run_directory row_num rows1 w = (w1, Ok tt) ->
    process_rows W tell run_directory row_num (rows1 ++ rows2) w
    = process_rows W tell run_directory (row_num + length rows1) rows2 w1.
Proof.
  induction rows1 as [|row rest IH]; intros row_num w w1 Hrun.
  - cbn in Hrun. injection Hrun as ->. cbn. rewrite Nat.add_0_r. reflexivity.
  - cbn [process_rows app length] in *.
    destruct (process_row W tell run_directory row_num row w) as [w' [u|e|]];
      try discriminate Hrun.
    rewrite (IH _ _ _ Hrun). f_equal. lia.
Qed.

Lemma process_rows_app_raise (rows1 rows2 : list (list string)) (e : exn) :
  forall (row_num : nat) (w w1 : W),
    process_rows W tell run_directory row_num rows1 w = (w1, Raise e) ->
    process_rows W tell run_directory row_num (rows1 ++ rows2) w
    = (w1, Raise e).
Proof.
  induction rows1 as [|row rest IH]; intros row_num w w1 Hrun.
  - discriminate Hrun.
  - cbn [process_rows app] in *.
    destruct (process_row W tell run_directory row_num row w) as [w' [u|e'|]];
      try discriminate Hrun.
    + exact (IH _ _ _ Hrun).
    + exact Hrun.
Qed.

(** X23. Rows that are empty or carry no batch size are reported and
    skipped without reaching [process_directory], and they count in the
    numbering of the rows: after first rows that end without an
    exception, an empty row is reported with its position in the table
    (from one), a row with only a folder name or with a blank batch size
    is reported with its stripped folder name whatever its flag cells
    hold, and in each case the run goes on with the next row and the next
    number. *)
Theorem skipped_rows_are_counted (rows1 rows2 : list (list string))
    (w w1 : W) :
  process_rows W tell run_directory 1 rows1 w = (w1, Ok tt) ->
  process_rows W tell run_directory 1 (rows1 ++ [] :: rows2) w
  = process_rows W tell run_directory (length rows1 + 2) rows2
      (tell (InvalidRow (length rows1 + 1)) w1)
  /\ (forall name,
        process_rows W tell run_directory 1 (rows1 ++ [name] :: rows2) w
        = process_rows W tell run_directory (length rows1 + 2) rows2
            (tell (NoBatchSize (strip name)) w1))
  /\ (forall name sizes cells, strip sizes = EmptyString ->
        process_rows W tell run_directory 1
          (rows1 ++ (name :: sizes :: cells) :: rows2) w
        = process_rows W tell run_directory (length rows1 + 2) rows2
            (tell (NoBatchSize (strip name)) w1)).
Proof.
  intros Hrun.
  assert (Hnext : forall row,
            process_rows W tell run_directory 1 (rows1 ++ row :: rows2) w
            = match process_row W tell run_directory (length rows1 + 1) row w1 with
              | (w2, Ok _) =>
                  process_rows W tell run_directory (length rows1 + 2) rows2 w2
              | failed => failed
              end).
  { intros row. rewrite (process_rows_app_ok rows1 (row :: rows2) 1 w w1 Hrun).
    cbn [process_rows]. replace (1 + length rows1)%nat with (length rows1 + 1)%nat by lia.
    replace (S (length rows1 + 1)) with (length rows1 + 2)%nat by lia. reflexivity. }
  split; [|split].
  - rewrite Hnext. reflexivity.
  - intros name. rewrite Hnext. reflexivity.
  - intros name sizes cells Hblank. rewrite Hnext. unfold process_row.
    cbn [lookup list_lookup fmap option_fmap option_map]. rewrite Hblank.
    reflexivity.
Qed.

(** X24. An exception that leaves [process_directory] ends the whole
    run: [main] logs the table as unreadable and returns normally, the
    rows after the failing one are never looked at, and the completion
    line is not logged. *)
Theorem failing_folder_ends_the_run (rows1 rows2 : list (list string))
    (w w1 : W) (e : exn) :
  process_rows W tell run_directory 1 rows1
    (tell ReadingConfiguration
       (tell DefaultSettings (tell BaseDirectory (tell Started w))))
  = (w1, Raise e) ->
  main W tell run_directory true (rows1 ++ rows2) w = (tell CsvError w1, Ok tt).
Proof.
  intros Hrun. unfold main. cbn [negb].
  rewrite (process_rows_app_raise rows1 rows2 e _ _ _ Hrun). reflexivity.
Qed.

End DriverFacts.

Lemma blank_flags_give_defaults_witness :
  Forall (fun cell => strip cell = EmptyString)
    (drop 2 ["A"; "1"; ""; "  "]%string)
  /\ flags_or_defaults ExampleDriver.site ExampleDriver.tell 1
       ["A"; "1"; ""; "  "]%string ExampleDriver.start
     = (ExampleDriver.start, default_flags).
Proof.
  assert (Hblank : Forall (fun cell => strip cell = EmptyString)
                     (drop 2 ["A"; "1"; ""; "  "]%string))
    by (repeat constructor).
  split; [exact Hblank|].
  exact (blank_flags_give_defaults ExampleDriver.site ExampleDriver.tell 1
           ["A"; "1"; ""; "  "]%string ExampleDriver.start Hblank).
Defined.

Lemma invalid_flag_resets_the_row_witness :
  (strip "1" <> EmptyString
   /\ (2 <= 3 <= 5)%nat
   /\ ["A"; "1"; "false"; "maybe"; "false"; "true"]%string !! 3%nat
      = Some "maybe"%string
   /\ parse_bool "maybe" true = Raise ValueError)
  /\ process_row ExampleDriver.site ExampleDriver.tell
       ExampleDriver.run_directory 1
       ["A"; "1"; "false"; "maybe"; "false"; "true"]%string ExampleDriver.start
     = ExampleDriver.run_directory "A" "1" true true true
         (Example.folder, [InvalidBoolean 1]).
Proof.
  assert (Hsizes : strip "1" <> EmptyString) by (vm_compute; discriminate).
  assert (Hi : (2 <= 3 <= 5)%nat) by lia.
  assert (Hcell : ["A"; "1"; "false"; "maybe"; "false"; "true"]%string !! 3%nat
                  = Some "maybe"%string) by reflexivity.
  assert (Hraise : parse_bool "maybe" true = Raise ValueError)
    by (vm_compute; reflexivity).
  split; [split; [exact Hsizes|split; [exact Hi|split; [exact Hcell|exact Hraise]]]|].
  exact (invalid_flag_resets_the_row ExampleDriver.site ExampleDriver.tell
           ExampleDriver.run_directory 1 "A" "1"
           ["false"; "maybe"; "false"; "true"]%string ExampleDriver.start
           3 "maybe" true Hsizes Hi Hcell Hraise).
Defined.

Lemma skipped_rows_are_counted_witness :
  process_rows ExampleDriver.site ExampleDriver.tell
    ExampleDriver.run_directory 1 [["B"; "2"]; ["C"]]%string ExampleDriver.start
  = (fst (process_rows ExampleDriver.site ExampleDriver.tell
            ExampleDriver.run_directory 1 [["B"; "2"]; ["C"]]%string
            ExampleDriver.start), Ok tt)
  /\ snd (fst (process_rows ExampleDriver.site ExampleDriver.tell
                 ExampleDriver.run_directory 1
                 ([["B"; "2"]; ["C"]]%string ++ [] :: [[]; ["D"; " "; "x"]]%string)
                 ExampleDriver.start))
     = [NoBatchSize "C"; InvalidRow 3; InvalidRow 4; NoBatchSize "D"].
Proof.
  assert (Hrun :
    process_rows ExampleDriver.site ExampleDriver.tell
      ExampleDriver.run_directory 1 [["B"; "2"]; ["C"]]%string ExampleDriver.start
    = (fst (process_rows ExampleDriver.site ExampleDriver.tell
              ExampleDriver.run_directory 1 [["B"; "2"]; ["C"]]%string
              ExampleDriver.start), Ok tt))
    by (vm_compute; reflexivity).
  split; [exact Hrun|].
  rewrite (proj1 (skipped_rows_are_counted ExampleDriver.site ExampleDriver.tell
                    ExampleDriver.run_directory [["B"; "2"]; ["C"]]%string
                    [[]; ["D"; " "; "x"]]%string ExampleDriver.start _ Hrun)).
  vm_compute. reflexivity.
Defined.

Lemma failing_folder_ends_the_run_witness :
  process_rows ExampleDriver.site ExampleDriver.tell
    ExampleDriver.run_directory 1 [["A"; "0"]]%string
    (Example.folder,
     [Started; BaseDirectory; DefaultSettings; ReadingConfiguration])
  = (fst (process_rows ExampleDriver.site ExampleDriver.tell
            ExampleDriver.run_directory 1 [["A"; "0"]]%string
            (Example.folder,
             [Started; BaseDirectory; DefaultSettings; ReadingConfiguration])),
     Raise ZeroDivisionError)
  /\ snd (fst (main ExampleDriver.site ExampleDriver.tell
                 ExampleDriver.run_directory true
                 ([["A"; "0"]]%string ++ [["A"; "1"]]%string) ExampleDriver.start))
     = [Started; BaseDirectory; DefaultSettings; ReadingConfiguration; CsvError].
Proof.
  assert (Hrun :
    process_rows ExampleDriver.site ExampleDriver.tell
      ExampleDriver.run_directory 1 [["A"; "0"]]%string
      (ExampleDriver.tell ReadingConfiguration
         (ExampleDriver.tell DefaultSettings
            (ExampleDriver.tell BaseDirectory
               (ExampleDriver.tell Started ExampleDriver.start))))
    = (fst (process_rows ExampleDriver.site ExampleDriver.tell
              ExampleDriver.run_directory 1 [["A"; "0"]]%string
              (Example.folder,
               [Started; BaseDirectory; DefaultSettings; ReadingConfiguration])),
       Raise ZeroDivisionError))
    by (vm_compute; reflexivity).
  split; [exact Hrun|].
  rewrite (failing_folder_ends_the_run ExampleDriver.site ExampleDriver.tell
             ExampleDriver.run_directory [["A"; "0"]]%string
             [["A"; "1"]]%string ExampleDriver.start _ ZeroDivisionError Hrun).
  vm_compute. reflexivity.
Defined.
